(** * gw2-mcp: wiki search client and cache manager

    A shallow embedding of [internal/wiki] (the [Client] with [Search],
    [performSearch], [getPageExtract], [cleanSnippet]) and of
    [internal/cache] (the [Manager] over [patrickmn/go-cache]), with the
    properties the specification states about them.

    Go strings are modelled as sequences of runes (Unicode code points held
    in [Z], as Go's [rune = int32]).  Every string this code handles comes
    out of a JSON decoder (the tool request, the wiki API replies, the cache
    entries written by [SetJSON]), which only produces valid UTF-8, and on
    valid UTF-8 the byte-level functions of package [strings] used here
    ([ReplaceAll], [Contains], [TrimSpace], [ToLower]) act rune by rune. *)

From Stdlib Require Import ZArith Lia String Ascii DecimalString DecimalZ.
From stdpp Require Import base option list gmap.

Local Open Scope Z_scope.

(** ** Go strings *)

Abbreviation rune := Z (only parsing).
Abbreviation gostring := (list Z) (only parsing).

(** A string literal of this file, one rune per (ASCII) character. *)
Fixpoint str (s : string) : gostring :=
  match s with
  | EmptyString => []
  | String a s' => Z.of_N (N_of_ascii a) :: str s'
  end.

(** The double quote, which a literal cannot hold. *)
Definition dquote : gostring := [34].

Module strings.

(** [strings.HasPrefix(s, prefix)]. *)
Fixpoint HasPrefix (s prefix : gostring) {struct prefix} : bool :=
  match prefix, s with
  | [], _ => true
  | _ :: _, [] => false
  | a :: prefix', b :: s' => (a =? b) && HasPrefix s' prefix'
  end.

(** [strings.Contains(s, substr)]: [substr] starts at some index of [s]. *)
Fixpoint Contains (s substr : gostring) : bool :=
  HasPrefix s substr ||
  match s with
  | [] => false
  | _ :: s' => Contains s' substr
  end.

(** The scan of [strings.Replace] for a non-empty [old]: matches are taken
    leftmost first and do not overlap.  [skip] counts the runes of a match
    that are still to be passed over. *)
Fixpoint replaceScan (old new : gostring) (skip : nat) (s : gostring)
  : gostring :=
  match s with
  | [] => []
  | c :: s' =>
      match skip with
      | S k => replaceScan old new k s'
      | O =>
          if HasPrefix s old
          then new ++ replaceScan old new (length old - 1) s'
          else c :: replaceScan old new 0 s'
      end
  end.

(** [strings.ReplaceAll(s, old, new)].  With an empty [old], Go inserts
    [new] before every rune and at the end. *)
Definition ReplaceAll (s old new : gostring) : gostring :=
  match old with
  | [] => new ++ flat_map (fun c => c :: new) s
  | _ :: _ => replaceScan old new 0 s
  end.

(** [unicode.IsSpace]: the Latin-1 spaces and the rest of White_Space. *)
Definition IsSpace (r : rune) : bool :=
  (r =? 9) || (r =? 10) || (r =? 11) || (r =? 12) || (r =? 13) ||
  (r =? 32) || (r =? 133) || (r =? 160) ||
  (r =? 5760) || ((8192 <=? r) && (r <=? 8202)) ||
  (r =? 8232) || (r =? 8233) || (r =? 8239) || (r =? 8287) ||
  (r =? 12288).

(** [strings.TrimLeftFunc(s, f)]. *)
Fixpoint TrimLeftFunc (s : gostring) (f : rune -> bool) : gostring :=
  match s with
  | [] => []
  | c :: s' => if f c then TrimLeftFunc s' f else s
  end.

(** [strings.TrimRightFunc(s, f)]. *)
Fixpoint TrimRightFunc (s : gostring) (f : rune -> bool) : gostring :=
  match s with
  | [] => []
  | c :: s' =>
      match TrimRightFunc s' f with
      | [] => if f c then [] else [c]
      | r => c :: r
      end
  end.

(** [strings.TrimSpace(s)], that is [TrimFunc(s, unicode.IsSpace)]. *)
Definition TrimSpace (s : gostring) : gostring :=
  TrimRightFunc (TrimLeftFunc s IsSpace) IsSpace.

End strings.

(** ** [wiki.Client.cleanSnippet] *)

Definition spanOpen : gostring :=
  Eval cbv in str "<span class=" ++ dquote ++ str "searchmatch" ++ dquote ++ str ">".
Definition spanClose : gostring := Eval cbv in str "</span>".
Definition entQuot : gostring := Eval cbv in str "&quot;".
Definition entAmp : gostring := Eval cbv in str "&amp;".
Definition entLt : gostring := Eval cbv in str "&lt;".
Definition entGt : gostring := Eval cbv in str "&gt;".

(** The loop [for strings.Contains(cleaned, "  ") { ... }], at most [fuel]
    rounds. *)
Fixpoint collapseSpaces (fuel : nat) (cleaned : gostring) : gostring :=
  match fuel with
  | O => cleaned
  | S fuel' =>
      if strings.Contains cleaned [32; 32]
      then collapseSpaces fuel' (strings.ReplaceAll cleaned [32; 32] [32])
      else cleaned
  end.

(** The six replacements at the head of [cleanSnippet]. *)
Definition stripMarkup (snippet : gostring) : gostring :=
  let cleaned := strings.ReplaceAll snippet spanOpen [] in
  let cleaned := strings.ReplaceAll cleaned spanClose [] in
  let cleaned := strings.ReplaceAll cleaned entQuot dquote in
  let cleaned := strings.ReplaceAll cleaned entAmp [38] in
  let cleaned := strings.ReplaceAll cleaned entLt [60] in
  strings.ReplaceAll cleaned entGt [62].

(** [cleanSnippet]: every round of the loop shortens [cleaned], so its
    length is fuel enough (see [collapseSpaces_done]). *)
Definition cleanSnippet (snippet : gostring) : gostring :=
  let cleaned := stripMarkup snippet in
  let cleaned := strings.TrimSpace cleaned in
  let cleaned := strings.ReplaceAll cleaned [10] [32] in
  let cleaned := strings.ReplaceAll cleaned [9] [32] in
  collapseSpaces (length cleaned) cleaned.

(** ** package [unicode] and [strings.ToLower] *)

Module unicode.

(** [unicode.ToLower]: the ASCII letters are lowered in the function
    itself, every other rune goes through the case tables
    ([To(LowerCase, r)]), which are taken as the parameter [caseTo]. *)
Definition ToLower (caseTo : rune -> rune) (r : rune) : rune :=
  if r <=? 127
  then (if (65 <=? r) && (r <=? 90) then r + (97 - 65) else r)
  else caseTo r.

End unicode.

(** ** package [net/url] *)

Module url.

(** [utf8.AppendRune]: the bytes of a rune; what is no Unicode scalar
    value is written as U+FFFD. *)
Definition encodeRune (r : rune) : list Z :=
  if (r <? 0) || (1114111 <? r) || ((55296 <=? r) && (r <=? 57343))
  then [239; 191; 189]
  else if r <=? 127 then [r]
  else if r <=? 2047
  then [Z.lor 192 (Z.shiftr r 6); Z.lor 128 (Z.land r 63)]
  else if r <=? 65535
  then [Z.lor 224 (Z.shiftr r 12);
        Z.lor 128 (Z.land (Z.shiftr r 6) 63);
        Z.lor 128 (Z.land r 63)]
  else [Z.lor 240 (Z.shiftr r 18);
        Z.lor 128 (Z.land (Z.shiftr r 12) 63);
        Z.lor 128 (Z.land (Z.shiftr r 6) 63);
        Z.lor 128 (Z.land r 63)].

(** The two escaping modes this program reaches. *)
Inductive encoding := encodePathSegment | encodeQueryComponent.

Definition isAlnum (c : Z) : bool :=
  ((97 <=? c) && (c <=? 122)) || ((65 <=? c) && (c <=? 90)) ||
  ((48 <=? c) && (c <=? 57)).

Definition memZ (c : Z) (l : list Z) : bool := existsb (Z.eqb c) l.

(** [shouldEscape(c, mode)] on a byte. *)
Definition shouldEscape (c : Z) (mode : encoding) : bool :=
  if isAlnum c then false
  else if memZ c (str "-_.~") then false
  else if memZ c (str "$&+,/:;=?@") then
    match mode with
    | encodePathSegment => memZ c (str "/;,?")
    | encodeQueryComponent => true
    end
  else true.

Definition upperhex (n : Z) : Z :=
  nth (Z.to_nat n) (str "0123456789ABCDEF") 48.

(** [escape(s, mode)], byte by byte. *)
Definition escapeByte (mode : encoding) (c : Z) : gostring :=
  if shouldEscape c mode then
    match mode with
    | encodeQueryComponent =>
        if c =? 32 then [43]
        else [37; upperhex (Z.shiftr c 4); upperhex (Z.land c 15)]
    | encodePathSegment =>
        [37; upperhex (Z.shiftr c 4); upperhex (Z.land c 15)]
    end
  else [c].

Definition escape (s : gostring) (mode : encoding) : gostring :=
  flat_map (escapeByte mode) (flat_map encodeRune s).

Definition QueryEscape (s : gostring) : gostring :=
  escape s encodeQueryComponent.

Definition PathEscape (s : gostring) : gostring :=
  escape s encodePathSegment.

End url.

(** ** package [fmt] *)

Module fmt.

(** The verb [%d] of [fmt.Sprintf] on an [int]: the decimal digits, with a
    minus sign in front of a negative number. *)
Definition Sprintd (n : Z) : gostring :=
  str (NilZero.string_of_int (Z.to_int n)).

End fmt.

(** ** package [cache]: the [Manager] over go-cache *)

(** An int64 computation keeps the low 64 bits, read as signed. *)
Definition wrap64 (x : Z) : Z := (x + 2 ^ 63) mod 2 ^ 64 - 2 ^ 63.

(** A dynamically typed value ([interface{}]). *)
Inductive any :=
| AnyNil
| AnyString (s : gostring)
| AnyInt (n : Z)
| AnyBool (b : bool).

(** Errors are values; [ErrWrap] is [fmt.Errorf("...: %w", err)]. *)
Inductive error :=
| ErrTransport (msg : gostring)
| ErrSearchStatus (code : Z) (body : gostring)
| ErrExtractStatus (code : Z)
| ErrJSON (msg : gostring)
| ErrWrap (msg : gostring) (err : error).

Inductive result (A : Type) :=
| Ok (a : A)
| Err (e : error).
Arguments Ok {A} a.
Arguments Err {A} e.

(** go-cache v2.1.0 ([github.com/patrickmn/go-cache]). Times are
    [time.Now().UnixNano()], durations are nanoseconds. *)
Module gocache.

Definition DefaultExpiration : Z := 0.
Definition NoExpiration : Z := -1.

Record Item := { Object : any; Expiration : Z }.

Record Cache := {
  defaultExpiration : Z;
  items : gmap (list Z) Item
}.

(** [cache.New(defaultExpiration, cleanupInterval)]; the interval only
    sets the pace of the janitor, which calls [DeleteExpired]. *)
Definition New (de ci : Z) : Cache :=
  {| defaultExpiration := if de =? 0 then -1 else de; items := ∅ |}.

(** [c.Set(k, x, d)] at time [now] ([Set] is a keyword here). *)
Definition Set_ (c : Cache) (now : Z) (k : gostring) (x : any) (d : Z)
  : Cache :=
  let d := if d =? DefaultExpiration then defaultExpiration c else d in
  let e := if 0 <? d then wrap64 (now + d) else 0 in
  {| defaultExpiration := defaultExpiration c;
     items := <[k := {| Object := x; Expiration := e |}]> (items c) |}.

(** [item.Expired()] as [Get] inlines it. *)
Definition expired (now : Z) (it : Item) : bool :=
  (0 <? Expiration it) && (Expiration it <? now).

(** [c.Get(k)] at time [now]. *)
Definition Get (c : Cache) (now : Z) (k : gostring) : any * bool :=
  match items c !! k with
  | None => (AnyNil, false)
  | Some it => if expired now it then (AnyNil, false) else (Object it, true)
  end.

Definition Delete (c : Cache) (k : gostring) : Cache :=
  {| defaultExpiration := defaultExpiration c; items := delete k (items c) |}.

(** The janitor's sweep. *)
Definition DeleteExpired (c : Cache) (now : Z) : Cache :=
  {| defaultExpiration := defaultExpiration c;
     items := filter (fun kv => expired now kv.2 = false) (items c) |}.

Definition Flush (c : Cache) : Cache :=
  {| defaultExpiration := defaultExpiration c; items := ∅ |}.

Definition ItemCount (c : Cache) : Z := Z.of_nat (size (items c)).

End gocache.

Module cache.

Definition Nanosecond : Z := 1.
Definition Second : Z := 1000000000 * Nanosecond.
Definition Minute : Z := 60 * Second.
Definition Hour : Z := 60 * Minute.

Definition StaticDataTTL : Z := 24 * Hour * 365.
Definition WikiDataTTL : Z := 24 * Hour.
Definition CleanupInterval : Z := 10 * Minute.

Definition CurrencyListKey : gostring := Eval cbv in str "currencies:list".
Definition CurrencyDetailKey : gostring := Eval cbv in str "currency:detail:".
Definition WikiSearchKey : gostring := Eval cbv in str "wiki:search:".
Definition WikiPageKey : gostring := Eval cbv in str "wiki:page:".
Definition WalletKey : gostring := Eval cbv in str "wallet:".

Record Manager := { cache : gocache.Cache }.

Definition NewManager : Manager :=
  {| cache := gocache.New StaticDataTTL CleanupInterval |}.

Definition Set_ (m : Manager) (now : Z) (key : gostring) (value : any)
  (ttl : Z) : Manager :=
  {| cache := gocache.Set_ (cache m) now key value ttl |}.

Definition Get (m : Manager) (now : Z) (key : gostring) : any * bool :=
  gocache.Get (cache m) now key.

Definition GetString (m : Manager) (now : Z) (key : gostring)
  : gostring * bool :=
  match gocache.Get (cache m) now key with
  | (AnyString s, true) => (s, true)
  | _ => ([], false)
  end.

(** [GetJSON(key, dest)]: [unmarshal] is [json.Unmarshal] at the type of
    [dest]; it returns what [dest] holds afterwards and the error. *)
Definition GetJSON {A : Type} (unmarshal : gostring -> A -> A * option error)
  (m : Manager) (now : Z) (key : gostring) (dest : A) : A * bool :=
  match gocache.Get (cache m) now key with
  | (AnyString jsonStr, true) =>
      match unmarshal jsonStr dest with
      | (dest', None) => (dest', true)
      | (dest', Some _) => (dest', false)
      end
  | _ => (dest, false)
  end.

(** [SetJSON(key, value, ttl)]: [marshal] is [json.Marshal] at the type
    of [value]. *)
Definition SetJSON {A : Type} (marshal : A -> result gostring)
  (m : Manager) (now : Z) (key : gostring) (value : A) (ttl : Z)
  : Manager * option error :=
  match marshal value with
  | Err err => (m, Some err)
  | Ok jsonData =>
      ({| cache := gocache.Set_ (cache m) now key (AnyString jsonData) ttl |},
       None)
  end.

Definition Delete (m : Manager) (key : gostring) : Manager :=
  {| cache := gocache.Delete (cache m) key |}.

Definition Flush (m : Manager) : Manager :=
  {| cache := gocache.Flush (cache m) |}.

Definition ItemCount (m : Manager) : Z := gocache.ItemCount (cache m).

Definition GetCurrencyListKey : gostring := CurrencyListKey.

Definition GetCurrencyDetailKey (id : Z) : gostring :=
  CurrencyDetailKey ++ fmt.Sprintd id.

Definition GetWikiSearchKey (query : gostring) : gostring :=
  WikiSearchKey ++ query.

Definition GetWikiPageKey (title : gostring) : gostring :=
  WikiPageKey ++ title.

Definition GetWalletKey (apiKeyHash : gostring) : gostring :=
  WalletKey ++ apiKeyHash.

End cache.

(** ** package [wiki] *)

Definition wikiBaseURL : gostring := Eval cbv in str "https://wiki.guildwars2.com".

Record SearchResult := {
  Title : gostring;
  PageID : Z;
  Size : Z;
  WordCount : Z;
  Snippet : gostring;
  Timestamp : gostring;
  URL : gostring;
  Extract : gostring
}.

(** [SearchedAt] is a [time.Time], held as its [UnixNano()]. *)
Record SearchResponse := {
  Query : gostring;
  Results : list SearchResult;
  Total : Z;
  SearchedAt : Z
}.

(** The zero value of [var searchResponse SearchResponse]. *)
Definition zeroSearchResponse : SearchResponse :=
  {| Query := []; Results := []; Total := 0; SearchedAt := 0 |}.

(** [WikiAPIResponse], with [Query.Search] and [Query.SearchInfo.TotalHits]
    as fields of one record. *)
Module WikiAPIResponse.
Record Item := {
  NS : Z;
  Title : gostring;
  PageID : Z;
  Size : Z;
  WordCount : Z;
  Snippet : gostring;
  Timestamp : gostring
}.
Record t := {
  BatchComplete : gostring;
  Search : list Item;
  TotalHits : Z
}.
End WikiAPIResponse.

(** [PageContentResponse]. [Pages] is a Go map, which a [range] visits in
    an order of the runtime's choosing: the list is the map in the order
    this run visits it. *)
Module PageContentResponse.
Record Page := {
  PageID : Z;
  NS : Z;
  Title : gostring;
  Extract : gostring
}.
Record t := {
  BatchComplete : gostring;
  Pages : list (gostring * Page)
}.
End PageContentResponse.

(** The two requests the client sends to [wikiAPIURL]; the parameters that
    never change ([action=query], [format=json], [list=search] and
    [srprop], or [prop=extracts], [exintro], [explaintext],
    [exsectionformat] and [exchars=500]) and the User-Agent header are left
    out. *)
Inductive Request :=
| SearchRequest (srsearch : gostring) (srlimit : Z)
| ExtractRequest (titles : gostring).

(** What [httpClient.Do] gives back: an error (transport, timeout,
    cancelled context) or a response with its status and body. *)
Inductive Reply :=
| ReplyError (msg : gostring)
| ReplyResponse (StatusCode : Z) (Body : gostring).

Inductive logLevel := DebugLevel | WarnLevel.

Inductive logField :=
| FieldString (key value : gostring)
| FieldError (key : gostring) (err : error).

Record logLine := {
  level : logLevel;
  message : gostring;
  fields : list logField
}.

(** What the client takes from outside the repository: the Unicode case
    table, the wiki server and the network, and [encoding/json] at the
    types it is used at. *)
Record Env := {
  (** [unicode.To(unicode.LowerCase, r)] beyond ASCII *)
  caseTo : rune -> rune;
  (** [httpClient.Do]: from the requests sent so far, the clock and the
      request, the reply and the clock when it arrives *)
  roundTrip : list Request -> Z -> Request -> Reply * Z;
  (** [json.NewDecoder(body).Decode(&apiResponse)] *)
  decodeWikiAPIResponse : gostring -> result WikiAPIResponse.t;
  (** [json.NewDecoder(body).Decode(&contentResponse)] *)
  decodePageContentResponse : gostring -> result PageContentResponse.t;
  (** [json.Marshal(searchResponse)] *)
  marshalSearchResponse : SearchResponse -> result gostring;
  (** [json.Unmarshal(data, &searchResponse)] *)
  unmarshalSearchResponse :
    gostring -> SearchResponse -> SearchResponse * option error
}.

(** The state a [Client] works on: the shared cache manager, the wall clock
    ([time.Now().UnixNano()]), the requests sent and the lines logged. *)
Record World := {
  manager : cache.Manager;
  clock : Z;
  sent : list Request;
  logged : list logLine
}.

(** State passing. *)
Definition M (A : Type) : Type := World -> A * World.

Definition ret {A : Type} (a : A) : M A := fun w => (a, w).

Definition bind {A B : Type} (c : M A) (k : A -> M B) : M B :=
  fun w => let (a, w') := c w in k a w'.

Notation "x <~ c ;; k" := (bind c (fun x => k))
  (at level 100, c at next level, right associativity).
Notation "c ;;; k" := (bind c (fun _ => k))
  (at level 100, right associativity).

Definition withManager {A : Type} (f : cache.Manager -> Z -> cache.Manager * A)
  : M A :=
  fun w =>
    let (m, a) := f (manager w) (clock w) in
    (a, {| manager := m; clock := clock w; sent := sent w; logged := logged w |}).

Definition timeNow : M Z := fun w => (clock w, w).

Definition logWrite (l : logLevel) (msg : gostring) (fs : list logField) : M unit :=
  fun w =>
    (tt, {| manager := manager w; clock := clock w; sent := sent w;
            logged := logged w ++ [ {| level := l; message := msg; fields := fs |} ] |}).

Section Client.

Variable E : Env.

(** [strings.ToLower(s)]. *)
Definition ToLower (s : gostring) : gostring :=
  map (unicode.ToLower (caseTo E)) s.

(** [c.httpClient.Do(req)], on the request [http.NewRequestWithContext]
    builds (it cannot fail on a fixed method and a well-formed URL). *)
Definition httpDo (req : Request) : M Reply :=
  fun w =>
    let (reply, arrival) := roundTrip E (sent w) (clock w) req in
    (reply, {| manager := manager w; clock := arrival;
               sent := sent w ++ [req]; logged := logged w |}).

(** The conversion loop at the end of [performSearch]. *)
Definition convertResults (apiResponse : WikiAPIResponse.t)
  : list SearchResult :=
  map (fun item =>
         {| Title := WikiAPIResponse.Title item;
            PageID := WikiAPIResponse.PageID item;
            Size := WikiAPIResponse.Size item;
            WordCount := WikiAPIResponse.WordCount item;
            Snippet := cleanSnippet (WikiAPIResponse.Snippet item);
            Timestamp := WikiAPIResponse.Timestamp item;
            URL := [];
            Extract := [] |})
      (WikiAPIResponse.Search apiResponse).

Definition performSearch (query : gostring) (limit : Z)
  : M (result (list SearchResult)) :=
  reply <~ httpDo (SearchRequest query limit) ;;
  match reply with
  | ReplyError msg => ret (Err (ErrTransport msg))
  | ReplyResponse StatusCode Body =>
      if negb (StatusCode =? 200)
      then ret (Err (ErrSearchStatus StatusCode Body))
      else
        match decodeWikiAPIResponse E Body with
        | Err err =>
            ret (Err (ErrWrap (str "failed to decode search response") err))
        | Ok apiResponse => ret (Ok (convertResults apiResponse))
        end
  end.

(** The [range] over [Pages] with its [break]. *)
Definition firstExtract (contentResponse : PageContentResponse.t)
  : gostring :=
  match PageContentResponse.Pages contentResponse with
  | [] => []
  | (_, page) :: _ => PageContentResponse.Extract page
  end.

Definition getPageExtract (title : gostring) : M (result gostring) :=
  let cacheKey := cache.GetWikiPageKey title in
  cached <~ withManager (fun m now => (m, cache.GetString m now cacheKey)) ;;
  match cached with
  | (extract, true) => ret (Ok extract)
  | (_, false) =>
      reply <~ httpDo (ExtractRequest title) ;;
      match reply with
      | ReplyError msg => ret (Err (ErrTransport msg))
      | ReplyResponse StatusCode Body =>
          if negb (StatusCode =? 200)
          then ret (Err (ErrExtractStatus StatusCode))
          else
            match decodePageContentResponse E Body with
            | Err err =>
                ret (Err (ErrWrap (str "failed to decode extract response") err))
            | Ok contentResponse =>
                let extract := firstExtract contentResponse in
                withManager (fun m now =>
                  (cache.Set_ m now cacheKey (AnyString extract)
                     cache.WikiDataTTL, tt)) ;;;
                ret (Ok extract)
            end
      end
  end.

(** The URL [Search] gives a result. *)
Definition resultURL (title : gostring) : gostring :=
  wikiBaseURL ++ str "/wiki/" ++ url.QueryEscape title.

(** The loop [for i := range searchResults] of [Search]. *)
Fixpoint enhance (searchResults : list SearchResult)
  : M (list SearchResult) :=
  match searchResults with
  | [] => ret []
  | r :: rest =>
      fetched <~ getPageExtract (Title r) ;;
      extract <~
        match fetched with
        | Err err =>
            logWrite WarnLevel (str "Failed to get page extract")
              [FieldString (str "title") (Title r);
               FieldError (str "error") err] ;;;
            ret (Extract r)
        | Ok extract => ret extract
        end ;;
      rest' <~ enhance rest ;;
      ret ({| Title := Title r; PageID := PageID r; Size := Size r;
              WordCount := WordCount r; Snippet := Snippet r;
              Timestamp := Timestamp r;
              URL := resultURL (Title r);
              Extract := extract |} :: rest')
  end.

(** The cache key of a query. *)
Definition searchCacheKey (query : gostring) : gostring :=
  let normalizedQuery := ToLower (strings.TrimSpace query) in
  cache.GetWikiSearchKey normalizedQuery.

Definition Search (query : gostring) (limit : Z)
  : M (result SearchResponse) :=
  let cacheKey := searchCacheKey query in
  got <~ withManager (fun m now =>
           (m, cache.GetJSON (unmarshalSearchResponse E) m now cacheKey
                 zeroSearchResponse)) ;;
  match got with
  | (searchResponse, true) =>
      logWrite DebugLevel (str "Wiki search cache hit")
        [FieldString (str "query") query] ;;;
      ret (Ok searchResponse)
  | (_, false) =>
      logWrite DebugLevel (str "Wiki search cache miss, fetching from API")
        [FieldString (str "query") query] ;;;
      searched <~ performSearch query limit ;;
      match searched with
      | Err err => ret (Err (ErrWrap (str "search failed") err))
      | Ok searchResults =>
          searchResults <~ enhance searchResults ;;
          now <~ timeNow ;;
          let searchResponse :=
            {| Query := query;
               Results := searchResults;
               Total := Z.of_nat (length searchResults);
               SearchedAt := now |} in
          stored <~ withManager (fun m now =>
                      cache.SetJSON (marshalSearchResponse E) m now cacheKey
                        searchResponse cache.WikiDataTTL) ;;
          match stored with
          | Some err =>
              logWrite WarnLevel (str "Failed to cache search results")
                [FieldError (str "error") err]
          | None => ret tt
          end ;;;
          ret (Ok searchResponse)
      end
  end.

End Client.

(** ** Notions the properties of [cleanSnippet] are stated with *)

Module snippet.
Import strings.

(** No space in front, no space at the end. *)
Definition noLead (s : gostring) : Prop :=
  forall c r, s = c :: r -> IsSpace c = false.
Definition noTrail (s : gostring) : Prop :=
  forall r c, s = r ++ [c] -> IsSpace c = false.

(** Turning a newline or a tab into a blank. *)
Definition blank (a : Z) (c : Z) : Z := if c =? a then 32 else c.

(** One round of the loop. *)
Definition squeeze (s : gostring) : gostring := ReplaceAll s [32; 32] [32].

(** The text after the six replacements, as [cleanSnippet] tidies it. *)
Definition tidy (cleaned : gostring) : gostring :=
  let cleaned := TrimSpace cleaned in
  let cleaned := ReplaceAll cleaned [10] [32] in
  let cleaned := ReplaceAll cleaned [9] [32] in
  collapseSpaces (length cleaned) cleaned.

Record tidied (t : gostring) : Prop := {
  tidied_lead : noLead t;
  tidied_trail : noTrail t;
  tidied_newline : 10 ∉ t;
  tidied_tab : 9 ∉ t;
  tidied_blanks : Contains t [32; 32] = false
}.

(** The wrapper tags and the entities [cleanSnippet] replaces. *)
Definition markup : list gostring :=
  [spanOpen; spanClose; entQuot; entAmp; entLt; entGt].

Definition hasMarkup (s : gostring) : bool :=
  existsb (Contains s) markup.

End snippet.

(** ** Notions the properties of [Search] are stated with *)





(** The same environment, with [query.searchinfo.totalhits] of every decoded
    search reply set to [n]. *)
Definition withTotalHits (n : Z) (E : Env) : Env :=
  {| caseTo := caseTo E;
     roundTrip := roundTrip E;
     decodeWikiAPIResponse := fun body =>
       match decodeWikiAPIResponse E body with
       | Ok r =>
           Ok {| WikiAPIResponse.BatchComplete := WikiAPIResponse.BatchComplete r;
                 WikiAPIResponse.Search := WikiAPIResponse.Search r;
                 WikiAPIResponse.TotalHits := n |}
       | Err e => Err e
       end;
     decodePageContentResponse := decodePageContentResponse E;
     marshalSearchResponse := marshalSearchResponse E;
     unmarshalSearchResponse := unmarshalSearchResponse E |}.

(** [Search] takes the miss branch in [w]. *)
Definition cacheMiss (E : Env) (query : gostring) (w : World) : Prop :=
  (cache.GetJSON (unmarshalSearchResponse E) (manager w) (clock w)
     (searchCacheKey E query) zeroSearchResponse).2 = false.

(** The world after the debug line of the miss branch. *)
Definition afterMissLine (query : gostring) (w : World) : World :=
  (logWrite DebugLevel (str "Wiki search cache miss, fetching from API")
     [FieldString (str "query") query] w).2.

(** What the miss branch of [Search] returns and leaves behind once the
    search request has given the results [rs] in the world [w1]. *)
Definition missOutcome (E : Env) (query : gostring) (rs : list SearchResult)
  (w1 : World) : result SearchResponse * World :=
  let (rs', w2) := enhance E rs w1 in
  let resp := {| Query := query; Results := rs';
                 Total := Z.of_nat (length rs'); SearchedAt := clock w2 |} in
  match marshalSearchResponse E resp with
  | Ok jsonData =>
      (Ok resp,
       {| manager := cache.Set_ (manager w2) (clock w2)
                       (searchCacheKey E query) (AnyString jsonData)
                       cache.WikiDataTTL;
          clock := clock w2; sent := sent w2; logged := logged w2 |})
  | Err err =>
      (Ok resp,
       {| manager := manager w2; clock := clock w2; sent := sent w2;
          logged := logged w2 ++
            [ {| level := WarnLevel;
                 message := str "Failed to cache search results";
                 fields := [FieldError (str "error") err] |} ] |})
  end.

(** What one round of the loop of [Search] makes of the result [r] when the
    extract fetch gave [fetched]. *)
Definition enhanced (r : SearchResult) (fetched : result gostring)
  : SearchResult :=
  {| Title := Title r; PageID := PageID r; Size := Size r;
     WordCount := WordCount r; Snippet := Snippet r;
     Timestamp := Timestamp r;
     URL := resultURL (Title r);
     Extract := match fetched with Ok extract => extract | Err _ => Extract r end |}.

(** The world after one round of the loop of [Search] on the result [r]. *)
Definition afterRound (E : Env) (r : SearchResult) (w : World) : World :=
  let (fetched, w0) := getPageExtract E (Title r) w in
  match fetched with
  | Ok _ => w0
  | Err err =>
      (logWrite WarnLevel (str "Failed to get page extract")
         [FieldString (str "title") (Title r); FieldError (str "error") err]
         w0).2
  end.

(** ** A small wiki to run the client on

    The server answers every search with status 200 and the hits [hits];
    [site] is its answer to an extract request for a title.  The JSON codec
    is a stand-in with one-letter tags: the body [S] is a search reply,
    [E:text] a page with the extract [text], [E] alone a reply with no page;
    a response is written as [R:] and its query, and read back through the
    table [stored]. *)

Definition latin1ToLower (r : rune) : rune :=
  if (192 <=? r) && (r <=? 222) && negb (r =? 215) then r + 32 else r.

Fixpoint eqString (a b : gostring) : bool :=
  match a, b with
  | [], [] => true
  | x :: a', y :: b' => (x =? y) && eqString a' b'
  | _, _ => false
  end.

Fixpoint lookupText {A : Type} (key : gostring) (table : list (gostring * A))
  : option A :=
  match table with
  | [] => None
  | (k, v) :: rest => if eqString k key then Some v else lookupText key rest
  end.

Definition demoEnv (hits : list WikiAPIResponse.Item) (site : gostring -> Reply)
  (stored : list (gostring * SearchResponse)) : Env :=
  {| caseTo := latin1ToLower;
     roundTrip := fun _ now req =>
       match req with
       | SearchRequest _ _ => (ReplyResponse 200 (str "S"), now + 1000000)
       | ExtractRequest title => (site title, now + 1000000)
       end;
     decodeWikiAPIResponse := fun body =>
       if eqString body (str "S")
       then Ok {| WikiAPIResponse.BatchComplete := [];
                  WikiAPIResponse.Search := hits;
                  WikiAPIResponse.TotalHits := Z.of_nat (length hits) |}
       else Err (ErrJSON (str "unexpected end of JSON input"));
     decodePageContentResponse := fun body =>
       match body with
       | [69] =>
           Ok {| PageContentResponse.BatchComplete := [];
                 PageContentResponse.Pages := [] |}
       | 69 :: 58 :: text =>
           Ok {| PageContentResponse.BatchComplete := [];
                 PageContentResponse.Pages :=
                   [(str "12345",
                     {| PageContentResponse.PageID := 12345;
                        PageContentResponse.NS := 0;
                        PageContentResponse.Title := [];
                        PageContentResponse.Extract := text |})] |}
       | _ => Err (ErrJSON (str "unexpected end of JSON input"))
       end;
     marshalSearchResponse := fun resp => Ok (str "R:" ++ Query resp);
     unmarshalSearchResponse := fun data dest =>
       match lookupText data stored with
       | Some resp => (resp, None)
       | None => (dest, Some (ErrJSON (str "unexpected end of JSON input")))
       end |}.

(** The hit of the repository's mock server. *)
Definition dragonBash : WikiAPIResponse.Item :=
  {| WikiAPIResponse.NS := 0;
     WikiAPIResponse.Title := str "Dragon Bash";
     WikiAPIResponse.PageID := 12345;
     WikiAPIResponse.Size := 5000;
     WikiAPIResponse.WordCount := 800;
     WikiAPIResponse.Snippet := spanOpen ++ str "Dragon</span> Bash is a festival";
     WikiAPIResponse.Timestamp := str "2023-07-01T12:00:00Z" |}.

Definition hitTitled (title : gostring) : WikiAPIResponse.Item :=
  {| WikiAPIResponse.NS := 0;
     WikiAPIResponse.Title := title;
     WikiAPIResponse.PageID := 0;
     WikiAPIResponse.Size := 0;
     WikiAPIResponse.WordCount := 0;
     WikiAPIResponse.Snippet := [];
     WikiAPIResponse.Timestamp := [] |}.

(** A site that has an extract for every page. *)
Definition siteUp (title : gostring) : Reply :=
  ReplyResponse 200 (str "E:" ++ title ++ str " is an annual festival.").

(** A site whose pages have no introduction (the reply holds no page) and
    that fails on the page [Zephyrite]. *)
Definition siteBare (title : gostring) : Reply :=
  if eqString title (str "Zephyrite")
  then ReplyResponse 500 []
  else ReplyResponse 200 (str "E").

(** A site that fails on the page [Zephyrite]. *)
Definition siteFlaky (title : gostring) : Reply :=
  if eqString title (str "Zephyrite")
  then ReplyResponse 500 []
  else siteUp title.

(** The response the repository's cache test stores. *)
Definition mockResponse : SearchResponse :=
  {| Query := str "test query";
     Results := [ {| Title := str "Test Page"; PageID := 123; Size := 0;
                     WordCount := 0; Snippet := []; Timestamp := [];
                     URL := []; Extract := [] |} ];
     Total := 1;
     SearchedAt := 0 |}.

(** A fresh manager at noon of 2023-07-01, nothing sent, nothing logged. *)
Definition freshWorld : World :=
  {| manager := cache.NewManager;
     clock := 1688212800000000000;
     sent := [];
     logged := [] |}.

(** The world of the cache test: [mockResponse] stored for a minute. *)
Definition mockWorld : World :=
  {| manager :=
       (cache.SetJSON (fun resp => Ok (str "R:" ++ Query resp))
          cache.NewManager 1688212800000000000
          (cache.GetWikiSearchKey (str "test query")) mockResponse
          cache.Minute).1;
     clock := 1688212800000000000;
     sent := [];
     logged := [] |}.

(** The environments the examples run in. *)
Definition mockEnv : Env :=
  demoEnv [] siteUp [(str "R:test query", mockResponse)].
Definition dragonEnv : Env := demoEnv [dragonBash] siteUp [].
Definition bareEnv : Env :=
  demoEnv [dragonBash; hitTitled (str "Zephyrite")] siteBare [].
Definition flakyEnv : Env :=
  demoEnv [hitTitled (str "Dragon Bash"); hitTitled (str "Zephyrite");
           hitTitled (str "Festival")] siteFlaky [].

(** [unicode.To(unicode.LowerCase, r)] and [unicode.To(unicode.UpperCase, r)]
    on the Greek letters U+0391 to U+03CB: the capitals are 32 below their
    small letters, there is no capital at U+03A2, and the final sigma
    U+03C2 is a small letter whose capital is the sigma U+03A3. *)
Definition greekToLower (r : rune) : rune :=
  if ((913 <=? r) && (r <=? 929)) || ((931 <=? r) && (r <=? 939))
  then r + 32 else r.



(** A stored text whose field [query] is well-formed and whose field
    [total] is a string, and what [json.Unmarshal] does with it: it writes
    [Query], fails on [total] and returns that error, leaving in [dest]
    what it wrote.  Any other text is taken as a syntax error, which leaves
    [dest] as it was. *)
Definition halfJSON : gostring :=
  Eval cbv in
    str "{" ++ dquote ++ str "query" ++ dquote ++ str ":" ++ dquote ++ str "x"
      ++ dquote ++ str "," ++ dquote ++ str "total" ++ dquote ++ str ":"
      ++ dquote ++ str "oops" ++ dquote ++ str "}".

Definition halfUnmarshal (data : gostring) (dest : SearchResponse)
  : SearchResponse * option error :=
  if eqString data halfJSON
  then ({| Query := str "x"; Results := Results dest; Total := Total dest;
           SearchedAt := SearchedAt dest |},
        Some (ErrJSON (str "cannot unmarshal string into field total")))
  else (dest, Some (ErrJSON (str "invalid character"))).

(** * Properties *)

(** ** Package [strings] *)

Module strings_facts.
Import strings.

Lemma HasPrefix_app (p r : gostring) : HasPrefix (p ++ r) p = true.
Proof.
  induction p as [|a p IH]; simpl; [done|].
  by rewrite Z.eqb_refl, IH.
Qed.

Lemma HasPrefix_true (s p : gostring) :
  HasPrefix s p = true -> exists r, s = p ++ r.
Proof.
  revert s. induction p as [|a p IH]; intros s H; simpl in *.
  - by exists s.
  - destruct s as [|b s]; [done|].
    apply andb_true_iff in H as [Hab Hp].
    apply Z.eqb_eq in Hab as ->.
    destruct (IH _ Hp) as [r ->]. by exists r.
Qed.

Lemma HasPrefix_first (c a : Z) (s p : gostring) :
  c <> a -> HasPrefix (c :: s) (a :: p) = false.
Proof.
  intros Hne. simpl. apply andb_false_iff. left.
  apply Z.eqb_neq. congruence.
Qed.

Lemma replaceScan_skip (old new : gostring) (k : nat) (s : gostring) :
  replaceScan old new k s = replaceScan old new 0 (drop k s).
Proof.
  revert k. induction s as [|c s IH]; intros [|k]; simpl; done.
Qed.

Lemma ReplaceAll_nil (old new : gostring) :
  old <> [] -> ReplaceAll [] old new = [].
Proof. by destruct old. Qed.

Lemma ReplaceAll_match (old new r : gostring) :
  old <> [] -> ReplaceAll (old ++ r) old new = new ++ ReplaceAll r old new.
Proof.
  destruct old as [|a o]; [done|intros _].
  unfold ReplaceAll.
  change ((a :: o) ++ r) with (a :: (o ++ r)).
  cbn [replaceScan].
  change (a :: (o ++ r)) with ((a :: o) ++ r).
  rewrite HasPrefix_app. f_equal.
  rewrite replaceScan_skip. simpl length.
  replace (S (length o) - 1)%nat with (length o) by lia.
  by rewrite drop_app_length.
Qed.

Lemma ReplaceAll_step (old new : gostring) (c : Z) (s : gostring) :
  old <> [] -> HasPrefix (c :: s) old = false ->
  ReplaceAll (c :: s) old new = c :: ReplaceAll s old new.
Proof.
  destruct old as [|a o]; [done|intros _ H].
  unfold ReplaceAll. cbn [replaceScan]. by rewrite H.
Qed.

(** Induction along the scan of [ReplaceAll]. *)
Lemma scan_ind (old : gostring) (Hold : old <> []) (P : gostring -> Prop) :
  P [] ->
  (forall r, P r -> P (old ++ r)) ->
  (forall c s, HasPrefix (c :: s) old = false -> P s -> P (c :: s)) ->
  forall s, P s.
Proof.
  intros Hnil Hmatch Hstep s.
  remember (length s) as n eqn:Hn.
  revert s Hn. induction n as [n IH] using lt_wf_ind. intros s Hn.
  destruct s as [|c s]; [done|].
  destruct (HasPrefix (c :: s) old) eqn:Hp.
  - apply HasPrefix_true in Hp as [r Hr]. rewrite Hr. apply Hmatch.
    apply (IH (length r)); [|done].
    subst n. rewrite Hr, length_app.
    destruct old; [done|simpl; lia].
  - apply Hstep; [done|]. apply (IH (length s)); [|done].
    subst n. simpl. lia.
Qed.

Lemma Contains_match (old r : gostring) : Contains (old ++ r) old = true.
Proof.
  destruct old as [|a o]; destruct r; simpl; try done;
    rewrite ?Z.eqb_refl; try done.
  - change (o ++ []) with (o ++ @nil Z).
    by rewrite HasPrefix_app.
  - by rewrite HasPrefix_app.
Qed.

Lemma Contains_cons (c : Z) (s sub : gostring) :
  Contains (c :: s) sub = HasPrefix (c :: s) sub || Contains s sub.
Proof. done. Qed.

Lemma ReplaceAll_absent (s old new : gostring) :
  old <> [] -> Contains s old = false -> ReplaceAll s old new = s.
Proof.
  intros Hold. induction s as [| r IH | c s Hp IH] using (scan_ind old Hold);
    try done; intros Hc.
  - by apply ReplaceAll_nil.
  - by rewrite Contains_match in Hc.
  - rewrite Contains_cons in Hc. apply orb_false_iff in Hc as [_ Hc].
    rewrite ReplaceAll_step by done. by rewrite IH.
Qed.

Lemma ReplaceAll_elem (s old new : gostring) (x : Z) :
  old <> [] -> x ∈ ReplaceAll s old new -> x ∈ s \/ x ∈ new.
Proof.
  intros Hold. induction s as [| r IH | c s Hp IH] using (scan_ind old Hold);
    try done.
  - rewrite ReplaceAll_nil by done. auto.
  - rewrite ReplaceAll_match by done. intros [H|H]%elem_of_app; [by right|].
    destruct (IH H); [left|by right]. apply elem_of_app. by right.
  - rewrite ReplaceAll_step by done.
    intros [->|H]%elem_of_cons; [left; by left|].
    destruct (IH H); [left; by right|by right].
Qed.

Lemma ReplaceAll_length (s old new : gostring) :
  old <> [] -> (length new <= length old)%nat ->
  (length (ReplaceAll s old new) <= length s)%nat.
Proof.
  intros Hold Hlen. induction s as [| r IH | c s Hp IH] using (scan_ind old Hold);
    try done.
  - by rewrite ReplaceAll_nil.
  - rewrite ReplaceAll_match by done. rewrite !length_app. lia.
  - rewrite ReplaceAll_step by done. simpl. lia.
Qed.

Lemma ReplaceAll_shorter (s old new : gostring) :
  (length new < length old)%nat -> Contains s old = true ->
  (length (ReplaceAll s old new) < length s)%nat.
Proof.
  intros Hlen.
  assert (Hold : old <> []) by (destruct old; [simpl in Hlen; lia|done]).
  induction s as [| r IH | c s Hp IH] using (scan_ind old Hold); try done.
  - intros H. destruct old; [done|]. simpl in H. done.
  - intros _. rewrite ReplaceAll_match by done. rewrite !length_app.
    pose proof (ReplaceAll_length r old new Hold ltac:(lia)). lia.
  - rewrite Contains_cons, Hp. simpl. intros H.
    rewrite ReplaceAll_step by done. simpl. specialize (IH H). lia.
Qed.

(** A rune that [old] does not hold ends no match. *)
Lemma HasPrefix_snoc (s old : gostring) (c : Z) :
  c ∉ old -> HasPrefix s old = false -> HasPrefix (s ++ [c]) old = false.
Proof.
  revert old. induction s as [|b s IH]; intros [|a o] Hc H; simpl in *;
    try done.
  - apply andb_false_iff. destruct o; [left|by right].
    apply Z.eqb_neq. intros ->. apply Hc. by left.
  - apply andb_false_iff in H as [H|H]; apply andb_false_iff; [by left|right].
    apply IH; [|done]. intros Hin. apply Hc. by right.
Qed.

Lemma ReplaceAll_snoc (s old new : gostring) (c : Z) :
  old <> [] -> c ∉ old ->
  ReplaceAll (s ++ [c]) old new = ReplaceAll s old new ++ [c].
Proof.
  intros Hold Hc. induction s as [| r IH | b s Hp IH] using (scan_ind old Hold);
    try done.
  - rewrite ReplaceAll_nil by done. simpl.
    rewrite ReplaceAll_step, ReplaceAll_nil; try done.
    destruct old as [|a o]; [done|]. apply HasPrefix_first.
    intros ->. apply Hc. by left.
  - rewrite <- app_assoc, !ReplaceAll_match by done.
    by rewrite IH, app_assoc.
  - change ((b :: s) ++ [c]) with (b :: (s ++ [c])).
    rewrite !ReplaceAll_step; try done.
    + by rewrite IH.
    + change (b :: (s ++ [c])) with ((b :: s) ++ [c]).
      by apply HasPrefix_snoc.
Qed.

(** Replacing one rune by another is a map. *)
Lemma ReplaceAll_rune (s : gostring) (a b : Z) :
  ReplaceAll s [a] [b] = map (fun c => if c =? a then b else c) s.
Proof.
  unfold ReplaceAll. induction s as [|c s IH]; [done|].
  cbn [replaceScan HasPrefix length]. simpl Nat.sub.
  rewrite (Z.eqb_sym a c). destruct (c =? a) eqn:Hca; simpl; by rewrite Hca, IH.
Qed.

Lemma Contains_rune (s : gostring) (a : Z) :
  Contains s [a] = false <-> a ∉ s.
Proof.
  induction s as [|c s IH]; simpl.
  - split; [intros _ H; inversion H|done].
  - rewrite andb_true_r, orb_false_iff, IH, not_elem_of_cons, Z.eqb_neq.
    done.
Qed.

End strings_facts.

(** ** [cleanSnippet] *)

Module snippet_facts.
Import strings strings_facts snippet.

Lemma TrimLeftFunc_noLead (s : gostring) : noLead (TrimLeftFunc s IsSpace).
Proof.
  induction s as [|a s IH]; simpl; [by intros c r|].
  destruct (IsSpace a) eqn:Ha; [done|].
  intros c r [= <- <-]. done.
Qed.

Lemma TrimRightFunc_cons (a : Z) (s : gostring) (f : Z -> bool) :
  TrimRightFunc (a :: s) f = [] \/
  exists r, TrimRightFunc (a :: s) f = a :: r.
Proof.
  simpl. destruct (TrimRightFunc s f); [destruct (f a)|]; eauto.
Qed.

Lemma TrimRightFunc_noLead (s : gostring) :
  noLead s -> noLead (TrimRightFunc s IsSpace).
Proof.
  destruct s as [|a s]; [done|]. intros Hs c r Hr.
  destruct (TrimRightFunc_cons a s IsSpace) as [H|[r' H]];
    rewrite H in Hr; [done|].
  injection Hr as <- <-. by eapply Hs.
Qed.

Lemma noTrail_cons (a b : Z) (s : gostring) :
  noTrail (b :: s) -> noTrail (a :: b :: s).
Proof.
  intros H r c Hr. destruct r as [|a' r]; [done|].
  injection Hr as <- Hr. by eapply H.
Qed.

Lemma noTrail_tail (a b : Z) (s : gostring) :
  noTrail (a :: b :: s) -> noTrail (b :: s).
Proof. intros H r c Hr. apply (H (a :: r) c). by rewrite Hr. Qed.

Lemma TrimRightFunc_noTrail (s : gostring) : noTrail (TrimRightFunc s IsSpace).
Proof.
  induction s as [|a s IH]; simpl; [by intros [|??] c|].
  destruct (TrimRightFunc s IsSpace) as [|b r].
  - destruct (IsSpace a) eqn:Ha; [by intros [|??] c|].
    intros [|? [|??]] c; [|done..]. by intros [= <-].
  - by apply noTrail_cons.
Qed.

Lemma TrimLeftFunc_id (s : gostring) :
  noLead s -> TrimLeftFunc s IsSpace = s.
Proof.
  destruct s as [|a s]; [done|]. intros H. simpl.
  by rewrite (H a s).
Qed.

Lemma TrimRightFunc_id (s : gostring) :
  noTrail s -> TrimRightFunc s IsSpace = s.
Proof.
  induction s as [|a s IH]; [done|]. intros H. simpl.
  destruct s as [|b s].
  - simpl. by rewrite (H [] a).
  - rewrite IH by (by eapply noTrail_tail). done.
Qed.

Lemma TrimSpace_noLead (s : gostring) : noLead (TrimSpace s).
Proof. apply TrimRightFunc_noLead, TrimLeftFunc_noLead. Qed.

Lemma TrimSpace_noTrail (s : gostring) : noTrail (TrimSpace s).
Proof. apply TrimRightFunc_noTrail. Qed.

Lemma TrimSpace_id (s : gostring) :
  noLead s -> noTrail s -> TrimSpace s = s.
Proof.
  intros H1 H2. unfold TrimSpace. rewrite TrimLeftFunc_id by done.
  by apply TrimRightFunc_id.
Qed.

Lemma TrimLeftFunc_length (s : gostring) (f : Z -> bool) :
  (length (TrimLeftFunc s f) <= length s)%nat.
Proof.
  induction s as [|a s IH]; simpl; [done|]. destruct (f a); simpl; lia.
Qed.

Lemma TrimRightFunc_length (s : gostring) (f : Z -> bool) :
  (length (TrimRightFunc s f) <= length s)%nat.
Proof.
  induction s as [|a s IH]; simpl; [done|].
  destruct (TrimRightFunc s f); [destruct (f a)|]; simpl in *; lia.
Qed.

Lemma TrimSpace_length (s : gostring) :
  (length (TrimSpace s) <= length s)%nat.
Proof.
  unfold TrimSpace.
  pose proof (TrimRightFunc_length (TrimLeftFunc s IsSpace) IsSpace).
  pose proof (TrimLeftFunc_length s IsSpace). lia.
Qed.

Lemma blank_keeps (a c : Z) :
  IsSpace a = true -> IsSpace c = false -> blank a c = c.
Proof.
  intros Ha Hc. unfold blank. destruct (c =? a) eqn:Hca; [|done].
  apply Z.eqb_eq in Hca. congruence.
Qed.

Lemma blank_noLead (a : Z) (s : gostring) :
  IsSpace a = true -> noLead s -> noLead (map (blank a) s).
Proof.
  intros Ha H c r Hr. destruct s as [|b s]; [done|].
  injection Hr as <- <-. rewrite blank_keeps; [|done|]; by eapply H.
Qed.

Lemma blank_noTrail (a : Z) (s : gostring) :
  IsSpace a = true -> noTrail s -> noTrail (map (blank a) s).
Proof.
  intros Ha H r c Hr.
  apply fmap_app_inv in Hr as (r' & l & -> & Hl & ->).
  destruct l as [|b [|??]]; simpl in Hl; try done. injection Hl as ->.
  rewrite blank_keeps; [|done|]; by eapply H.
Qed.

Lemma blank_absent (a : Z) (s : gostring) : a <> 32 -> a ∉ map (blank a) s.
Proof.
  intros Ha [c [Hc _]]%list_elem_of_fmap. unfold blank in Hc.
  destruct (c =? a) eqn:Hca; [done|]. apply Z.eqb_neq in Hca. done.
Qed.

Lemma blank_other (a x : Z) (s : gostring) :
  x <> 32 -> x ∉ s -> x ∉ map (blank a) s.
Proof.
  intros Hx Hs [c [Hc Hin]]%list_elem_of_fmap. unfold blank in Hc.
  destruct (c =? a); [done|]. by subst.
Qed.

Lemma squeeze_noLead (s : gostring) : noLead s -> noLead (squeeze s).
Proof.
  intros H c r. destruct s as [|a s]; [done|].
  assert (Ha : IsSpace a = false) by by eapply H.
  unfold squeeze. rewrite ReplaceAll_step; [|done|].
  - by intros [= <- _].
  - apply HasPrefix_first. by intros ->.
Qed.

Lemma squeeze_noTrail (s : gostring) : noTrail s -> noTrail (squeeze s).
Proof.
  intros H r c. destruct s as [|a s _] using rev_ind.
  { by destruct r. }
  assert (Ha : IsSpace a = false) by by eapply H.
  unfold squeeze. rewrite ReplaceAll_snoc; [|done|].
  - by intros [_ <-]%app_inj_tail.
  - intros Hin. apply list_elem_of_In in Hin. simpl in Hin.
    destruct Hin as [<-|[<-|[]]]; done.
Qed.

Lemma squeeze_absent (x : Z) (s : gostring) :
  x <> 32 -> x ∉ s -> x ∉ squeeze s.
Proof.
  intros Hx Hs Hin. unfold squeeze in Hin.
  apply ReplaceAll_elem in Hin as [H|H]; [done| |done].
  apply list_elem_of_singleton in H. done.
Qed.

Lemma squeeze_length (s : gostring) : (length (squeeze s) <= length s)%nat.
Proof. apply ReplaceAll_length; [done|simpl; lia]. Qed.

Lemma collapseSpaces_keeps (P : gostring -> Prop) :
  (forall s, P s -> P (squeeze s)) ->
  forall fuel s, P s -> P (collapseSpaces fuel s).
Proof.
  intros HP fuel. induction fuel as [|fuel IH]; intros s Hs;
    cbn [collapseSpaces]; [done|].
  destruct (Contains s [32; 32]); [|done]. by apply IH, HP.
Qed.

(** The loop leaves through its condition: the fuel [cleanSnippet] gives
    it is never used up. *)
Lemma collapseSpaces_done (fuel : nat) (s : gostring) :
  (length s <= fuel)%nat ->
  Contains (collapseSpaces fuel s) [32; 32] = false.
Proof.
  revert s. induction fuel as [|fuel IH]; intros s Hlen; cbn [collapseSpaces].
  - destruct s; [done|simpl in Hlen; lia].
  - destruct (Contains s [32; 32]) eqn:Hc; [|done].
    apply IH.
    pose proof (ReplaceAll_shorter s [32; 32] [32] ltac:(simpl; lia) Hc).
    lia.
Qed.

Lemma collapseSpaces_length (fuel : nat) (s : gostring) :
  (length (collapseSpaces fuel s) <= length s)%nat.
Proof.
  revert s. induction fuel as [|fuel IH]; intros s; cbn [collapseSpaces]; [done|].
  destruct (Contains s [32; 32]); [|done].
  pose proof (IH (ReplaceAll s [32; 32] [32])).
  pose proof (squeeze_length s). unfold squeeze in *. lia.
Qed.

Lemma collapseSpaces_id (fuel : nat) (s : gostring) :
  Contains s [32; 32] = false -> collapseSpaces fuel s = s.
Proof. intros H. destruct fuel; cbn [collapseSpaces]; [done|]. by rewrite H. Qed.

Lemma cleanSnippet_tidy (s : gostring) :
  cleanSnippet s = tidy (stripMarkup s).
Proof. done. Qed.

Lemma tidy_tidied (s : gostring) : tidied (tidy s).
Proof.
  unfold tidy. rewrite !ReplaceAll_rune.
  change (fun c : Z => if c =? 10 then 32 else c) with (blank 10).
  change (fun c : Z => if c =? 9 then 32 else c) with (blank 9).
  set (u := map (blank 9) (map (blank 10) (TrimSpace s))).
  assert (Hu1 : noLead u)
    by (do 2 (apply blank_noLead; [done|]); apply TrimSpace_noLead).
  assert (Hu2 : noTrail u)
    by (do 2 (apply blank_noTrail; [done|]); apply TrimSpace_noTrail).
  assert (Hu3 : 10 ∉ u) by (apply blank_other; [done|]; by apply blank_absent).
  assert (Hu4 : 9 ∉ u) by by apply blank_absent.
  split.
  - by apply (collapseSpaces_keeps noLead squeeze_noLead).
  - by apply (collapseSpaces_keeps noTrail squeeze_noTrail).
  - apply (collapseSpaces_keeps (fun t => 10 ∉ t)); [|done].
    intros t. by apply squeeze_absent.
  - apply (collapseSpaces_keeps (fun t => 9 ∉ t)); [|done].
    intros t. by apply squeeze_absent.
  - by apply collapseSpaces_done.
Qed.

Lemma tidy_id (t : gostring) : tidied t -> tidy t = t.
Proof.
  intros [H1 H2 H3 H4 H5]. unfold tidy.
  rewrite TrimSpace_id by done.
  rewrite (ReplaceAll_absent t [10] [32]) by (by try apply Contains_rune).
  rewrite (ReplaceAll_absent t [9] [32]) by (by try apply Contains_rune).
  by apply collapseSpaces_id.
Qed.

Lemma tidy_length (s : gostring) : (length (tidy s) <= length s)%nat.
Proof.
  unfold tidy. rewrite !ReplaceAll_rune.
  etrans; [apply collapseSpaces_length|].
  rewrite !length_map. apply TrimSpace_length.
Qed.

Lemma stripMarkup_id (t : gostring) : hasMarkup t = false -> stripMarkup t = t.
Proof.
  unfold hasMarkup, markup. simpl.
  rewrite !orb_false_iff. intros (H1 & H2 & H3 & H4 & H5 & H6 & _).
  unfold stripMarkup.
  rewrite (ReplaceAll_absent t spanOpen) by done.
  rewrite (ReplaceAll_absent t spanClose) by done.
  rewrite (ReplaceAll_absent t entQuot) by done.
  rewrite (ReplaceAll_absent t entAmp) by done.
  rewrite (ReplaceAll_absent t entLt) by done.
  by rewrite (ReplaceAll_absent t entGt).
Qed.

Lemma ReplaceAll_markup_length (t old new : gostring) :
  (length new < length old)%nat ->
  (length (ReplaceAll t old new) <= length t)%nat /\
  (Contains t old = true -> (length (ReplaceAll t old new) < length t)%nat) /\
  (Contains t old = false -> ReplaceAll t old new = t).
Proof.
  intros Hlen.
  assert (Hold : old <> []) by (destruct old; [simpl in Hlen; lia|done]).
  split; [apply ReplaceAll_length; [done|lia]|]. split.
  - by apply ReplaceAll_shorter.
  - by apply ReplaceAll_absent.
Qed.

Lemma stripMarkup_shorter (t : gostring) :
  hasMarkup t = true -> (length (stripMarkup t) < length t)%nat.
Proof.
  unfold hasMarkup, markup, stripMarkup. cbn [existsb].
  rewrite orb_false_r. intros H.
  remember (ReplaceAll t spanOpen []) as t1 eqn:E1.
  remember (ReplaceAll t1 spanClose []) as t2 eqn:E2.
  remember (ReplaceAll t2 entQuot dquote) as t3 eqn:E3.
  remember (ReplaceAll t3 entAmp [38]) as t4 eqn:E4.
  remember (ReplaceAll t4 entLt [60]) as t5 eqn:E5.
  remember (ReplaceAll t5 entGt [62]) as t6 eqn:E6.
  destruct (ReplaceAll_markup_length t spanOpen []) as (L1 & S1 & I1);
    [simpl; lia|].
  destruct (ReplaceAll_markup_length t1 spanClose []) as (L2 & S2 & I2);
    [simpl; lia|].
  destruct (ReplaceAll_markup_length t2 entQuot dquote) as (L3 & S3 & I3);
    [simpl; lia|].
  destruct (ReplaceAll_markup_length t3 entAmp [38]) as (L4 & S4 & I4);
    [simpl; lia|].
  destruct (ReplaceAll_markup_length t4 entLt [60]) as (L5 & S5 & I5);
    [simpl; lia|].
  destruct (ReplaceAll_markup_length t5 entGt [62]) as (L6 & S6 & I6);
    [simpl; lia|].
  rewrite <- E1 in *. rewrite <- E2 in *. rewrite <- E3 in *.
  rewrite <- E4 in *. rewrite <- E5 in *. rewrite <- E6 in *.
  clear E1 E2 E3 E4 E5 E6.
  destruct (Contains t spanOpen) eqn:C1; [specialize (S1 eq_refl); lia|].
  specialize (I1 eq_refl). clear S1 L1. subst t1.
  destruct (Contains t spanClose) eqn:C2; [specialize (S2 eq_refl); lia|].
  specialize (I2 eq_refl). clear S2 L2. subst t2.
  destruct (Contains t entQuot) eqn:C3; [specialize (S3 eq_refl); lia|].
  specialize (I3 eq_refl). clear S3 L3. subst t3.
  destruct (Contains t entAmp) eqn:C4; [specialize (S4 eq_refl); lia|].
  specialize (I4 eq_refl). clear S4 L4. subst t4.
  destruct (Contains t entLt) eqn:C5; [specialize (S5 eq_refl); lia|].
  specialize (I5 eq_refl). clear S5 L5. subst t5.
  simpl in H. specialize (S6 H). lia.
Qed.

End snippet_facts.

(** The cases of the repository's test of [cleanSnippet]. *)
Example cleanSnippet_tags :
  cleanSnippet (spanOpen ++ str "Dragon</span> Bash is a festival")
  = str "Dragon Bash is a festival".
Proof. reflexivity. Qed.

Example cleanSnippet_entities :
  cleanSnippet (str "&quot;Dragon Bash&quot; &amp; other events &lt;test&gt;")
  = dquote ++ str "Dragon Bash" ++ dquote ++ str " & other events <test>".
Proof. reflexivity. Qed.

Example cleanSnippet_whitespace :
  cleanSnippet (str "Dragon" ++ [10] ++ str "Bash" ++ [9]
                  ++ str "  festival   with    spaces")
  = str "Dragon Bash festival with spaces".
Proof. reflexivity. Qed.

Example cleanSnippet_mixed :
  cleanSnippet (spanOpen ++ str "Dragon</span>" ++ [10; 9]
                  ++ str "Bash &amp; &quot;events&quot;   ")
  = str "Dragon Bash & " ++ dquote ++ str "events" ++ dquote.
Proof. reflexivity. Qed.

(** C2, as the specification states it, fails: an entity whose ampersand is
    itself escaped is decoded once by each pass.  [cleanSnippet] maps
    [&amp;amp;] to [&amp;] and [&amp;] to [&], so a second pass changes
    the text again. *)
Lemma cleanSnippet_not_idempotent :
  cleanSnippet (str "&amp;amp;") = str "&amp;" /\
  cleanSnippet (cleanSnippet (str "&amp;amp;")) = str "&" /\
  cleanSnippet (cleanSnippet (str "&amp;amp;")) <> cleanSnippet (str "&amp;amp;").
Proof. split; [|split]; [reflexivity..|discriminate]. Qed.

(** C2, amended: a second pass of [cleanSnippet] changes nothing exactly
    when the cleaned text holds none of the six strings the function
    replaces (the two wrapper tags [<span class=searchmatch>] and [</span>],
    and the entities [&quot;], [&amp;], [&lt;], [&gt;]). *)
Theorem cleanSnippet_twice (s : gostring) :
  cleanSnippet (cleanSnippet s) = cleanSnippet s <->
  snippet.hasMarkup (cleanSnippet s) = false.
Proof.
  split.
  - intros Heq.
    destruct (snippet.hasMarkup (cleanSnippet s)) eqn:Hm; [|done].
    exfalso.
    pose proof (snippet_facts.stripMarkup_shorter _ Hm) as Hlt.
    pose proof (snippet_facts.tidy_length (stripMarkup (cleanSnippet s))) as Hle.
    rewrite <- snippet_facts.cleanSnippet_tidy, Heq in Hle. lia.
  - intros Hm.
    rewrite (snippet_facts.cleanSnippet_tidy (cleanSnippet s)).
    rewrite snippet_facts.stripMarkup_id by done.
    apply snippet_facts.tidy_id.
    rewrite snippet_facts.cleanSnippet_tidy.
    apply snippet_facts.tidy_tidied.
Qed.

(** ** The cache manager *)

Module cache_facts.

Lemma wrap64_small (x : Z) : - 2 ^ 63 <= x < 2 ^ 63 -> wrap64 x = x.
Proof. intros H. unfold wrap64. rewrite Z.mod_small; lia. Qed.

Lemma Get_Set_eq (c : gocache.Cache) (t now : Z) (k : gostring) (x : any) (d : Z) :
  gocache.Get (gocache.Set_ c t k x d) now k =
  let d' := if d =? 0 then gocache.defaultExpiration c else d in
  let e := if 0 <? d' then wrap64 (t + d') else 0 in
  if (0 <? e) && (e <? now) then (AnyNil, false) else (x, true).
Proof.
  unfold gocache.Get, gocache.Set_, gocache.expired, gocache.DefaultExpiration.
  cbn [gocache.items gocache.Expiration gocache.Object].
  by rewrite lookup_insert_eq.
Qed.

Lemma Get_DeleteExpired (c : gocache.Cache) (sweep now : Z) (k : gostring) :
  sweep <= now ->
  gocache.Get (gocache.DeleteExpired c sweep) now k = gocache.Get c now k.
Proof.
  intros Hle. unfold gocache.Get, gocache.DeleteExpired.
  cbn [gocache.items].
  destruct (gocache.items c !! k) as [it|] eqn:Hk.
  - destruct (gocache.expired sweep it) eqn:Hx.
    + rewrite (proj2 (map_lookup_filter_None _ _ _)).
      * assert (gocache.expired now it = true) as ->; [|done].
        unfold gocache.expired in *.
        apply andb_true_iff in Hx as [H1 H2]. apply andb_true_iff.
        split; [done|]. apply Z.ltb_lt in H2. apply Z.ltb_lt. lia.
      * right. intros it' Hit'. rewrite Hk in Hit'. injection Hit' as <-.
        simpl. congruence.
    + by rewrite (map_lookup_filter_Some_2 _ _ _ _ Hk Hx).
  - rewrite (proj2 (map_lookup_filter_None _ _ _)); [done|]. by left.
Qed.

End cache_facts.

(** C7, as the specification states it, fails at [d = 0]: go-cache reads a
    duration of 0 as [DefaultExpiration] and gives the entry the manager's
    default life, [StaticDataTTL].  Stored with [d = 0], the entry is still
    found a second later. *)
Lemma Set_zero_ttl_still_found :
  let t := 1688212800000000000 in
  t + 0 < t + cache.Second /\
  cache.Get
    (cache.Set_ cache.NewManager t (str "k") (AnyString (str "v")) 0)
    (t + cache.Second) (str "k")
  = (AnyString (str "v"), true).
Proof.
  split; [reflexivity|]. unfold cache.Get, cache.Set_. cbn [cache.cache].
  rewrite cache_facts.Get_Set_eq. reflexivity.
Qed.

(** C7, amended: for a duration [d > 0], a store time [t] not before the
    Unix epoch and [t + d] within the int64 nanoseconds, after
    [Set(key, value, d)] at time [t] a [Get(key)] at time [now] finds the
    value when [now <= t + d] and finds nothing when [now > t + d]; a sweep
    of the janitor at any earlier time changes neither answer, so the
    answer comes from the check [Get] makes itself.  ([d = 0] stands for
    the manager's default expiration, not for an immediate one.) *)
Theorem Set_then_Get (m : cache.Manager) (t now d : Z) (key : gostring)
  (value : any) :
  0 < d -> 0 <= t -> t + d < 2 ^ 63 ->
  let m' := cache.Set_ m t key value d in
  cache.Get m' now key
  = (if now <=? t + d then (value, true) else (AnyNil, false)) /\
  forall sweep, sweep <= now ->
    gocache.Get (gocache.DeleteExpired (cache.cache m') sweep) now key
    = cache.Get m' now key.
Proof.
  intros Hd Ht Hmax m'. split.
  - unfold m', cache.Get, cache.Set_. cbn [cache.cache].
    rewrite cache_facts.Get_Set_eq. cbn zeta.
    assert ((d =? 0) = false) as -> by lia.
    assert ((0 <? d) = true) as -> by lia.
    rewrite cache_facts.wrap64_small by lia.
    assert ((0 <? t + d) = true) as -> by lia.
    cbn [andb].
    destruct (Z.leb_spec now (t + d)), (Z.ltb_spec (t + d) now); done || lia.
  - intros sweep Hs. by apply cache_facts.Get_DeleteExpired.
Qed.

Lemma Set_then_Get_witness :
  let t := 1688212800000000000 in
  let d := cache.Minute in
  let now := t + d + 1 in
  (0 < d /\ 0 <= t /\ t + d < 2 ^ 63) /\
  let m' := cache.Set_ cache.NewManager t (str "k") (AnyString (str "v")) d in
  cache.Get m' now (str "k")
  = (if now <=? t + d then (AnyString (str "v"), true) else (AnyNil, false)) /\
  forall sweep, sweep <= now ->
    gocache.Get (gocache.DeleteExpired (cache.cache m') sweep) now (str "k")
    = cache.Get m' now (str "k").
Proof.
  intros t d now. split; [done|].
  exact (Set_then_Get cache.NewManager t now d (str "k") (AnyString (str "v"))
           eq_refl ltac:(done) eq_refl).
Defined.

(** When [GetJSON] returns false. *)
Lemma GetJSON_false_cases {A : Type}
  (unmarshal : gostring -> A -> A * option error)
  (m : cache.Manager) (now : Z) (key : gostring) (dest : A) :
  (cache.GetJSON unmarshal m now key dest).2 = false <->
  gocache.items (cache.cache m) !! key = None \/
  (exists it, gocache.items (cache.cache m) !! key = Some it /\
     (gocache.expired now it = true \/
      (forall jsonStr, gocache.Object it <> AnyString jsonStr) \/
      (exists jsonStr err, gocache.Object it = AnyString jsonStr /\
         (unmarshal jsonStr dest).2 = Some err))).
Proof.
  unfold cache.GetJSON, gocache.Get.
  destruct (gocache.items (cache.cache m) !! key) as [it|] eqn:Hk.
  - destruct (gocache.expired now it) eqn:Hx.
    + split; [|done]. intros _. right. exists it. auto.
    + destruct (gocache.Object it) as [|js| |] eqn:Ho.
      1,3,4: (split; [|done]; intros _; right; exists it; split; [done|];
              right; left; intros js'; congruence).
      destruct (unmarshal js dest) as [dest' [err|]] eqn:Hu; simpl.
      * split; [|done]. intros _. right. exists it. split; [done|].
        right. right. exists js, err. by rewrite Hu.
      * split; [done|]. intros [|[it' [[= <-] [|[H|(js' & err & Hjs & H)]]]]].
        -- done.
        -- congruence.
        -- by specialize (H js).
        -- rewrite Ho in Hjs. injection Hjs as <-. by rewrite Hu in H.
  - split; [|done]. intros _. by left.
Qed.

(** C8, as the specification states it, fails in its second half: a failed
    deserialization is not indistinguishable from a miss.  [json.Unmarshal]
    writes into [dest] as it goes, so after a failure [dest] holds what was
    written before the error, while a miss leaves [dest] as it was.  Both
    calls return false; the first has set [Query] to [x]. *)
Lemma GetJSON_failure_differs_from_miss :
  let t := 1688212800000000000 in
  let m := cache.Set_ cache.NewManager t (str "k") (AnyString halfJSON)
             cache.Minute in
  cache.GetJSON halfUnmarshal m (t + 1) (str "k") zeroSearchResponse
  = ({| Query := str "x"; Results := []; Total := 0; SearchedAt := 0 |}, false) /\
  cache.GetJSON halfUnmarshal m (t + 1) (str "absent") zeroSearchResponse
  = (zeroSearchResponse, false) /\
  (cache.GetJSON halfUnmarshal m (t + 1) (str "k") zeroSearchResponse).1
  <> (cache.GetJSON halfUnmarshal m (t + 1) (str "absent") zeroSearchResponse).1.
Proof. split; [|split]; [vm_compute; reflexivity..|vm_compute; discriminate]. Qed.

(** C8, amended: [GetJSON(key, dest)] returns false exactly when the key is
    absent, or its entry is expired, or the stored value is no string, or
    [json.Unmarshal] of the stored text into [dest] fails.  No error is
    returned in any case, only the boolean.  What tells the cases apart is
    [dest]: when [Get] does not find a string, [dest] is left as it was;
    when it finds one, [dest] is what [json.Unmarshal] left in it, also
    when [json.Unmarshal] failed. *)
Theorem GetJSON_result {A : Type}
  (unmarshal : gostring -> A -> A * option error)
  (m : cache.Manager) (now : Z) (key : gostring) (dest : A) :
  ((cache.GetJSON unmarshal m now key dest).2 = false <->
   gocache.items (cache.cache m) !! key = None \/
   (exists it, gocache.items (cache.cache m) !! key = Some it /\
      (gocache.expired now it = true \/
       (forall jsonStr, gocache.Object it <> AnyString jsonStr) \/
       (exists jsonStr err, gocache.Object it = AnyString jsonStr /\
          (unmarshal jsonStr dest).2 = Some err)))) /\
  ((forall jsonStr, cache.Get m now key <> (AnyString jsonStr, true)) ->
   cache.GetJSON unmarshal m now key dest = (dest, false)) /\
  (forall jsonStr, cache.Get m now key = (AnyString jsonStr, true) ->
     cache.GetJSON unmarshal m now key dest
     = ((unmarshal jsonStr dest).1,
        match (unmarshal jsonStr dest).2 with
        | None => true
        | Some _ => false
        end)).
Proof.
  split; [apply GetJSON_false_cases|]. unfold cache.GetJSON, cache.Get. split.
  - intros Hno.
    destruct (gocache.Get (cache.cache m) now key) as [[|js| |] [|]]; try done.
    by specialize (Hno js).
  - intros js ->. by destruct (unmarshal js dest) as [dest' [err|]].
Qed.

(** ** [Search] *)

Module search_facts.

(** The world after one more log line. *)
Lemma logWrite_world (l : logLevel) (msg : gostring) (fs : list logField)
  (w : World) :
  let w' := (logWrite l msg fs w).2 in
  manager w' = manager w /\ clock w' = clock w /\ sent w' = sent w.
Proof. done. Qed.

Section Facts.

Variable E : Env.

Lemma Search_unfold (query : gostring) (limit : Z) (w : World) :
  Search E query limit w
  = match cache.GetJSON (unmarshalSearchResponse E) (manager w) (clock w)
            (searchCacheKey E query) zeroSearchResponse with
    | (resp, true) =>
        (Ok resp,
         (logWrite DebugLevel (str "Wiki search cache hit")
            [FieldString (str "query") query] w).2)
    | (_, false) =>
        match performSearch E query limit (afterMissLine query w) with
        | (Err err, w1) => (Err (ErrWrap (str "search failed") err), w1)
        | (Ok rs, w1) => missOutcome E query rs w1
        end
    end.
Proof.
  destruct w as [m c s l].
  unfold Search, bind at 1, withManager. cbn [manager clock sent logged].
  destruct (cache.GetJSON _ _ _ _ _) as [x [|]]; [done|].
  unfold bind at 1. unfold afterMissLine, logWrite. cbn [snd].
  unfold bind at 1.
  destruct (performSearch E query limit _) as [[rs|err] w1]; [|done].
  unfold missOutcome, bind at 1.
  destruct (enhance E rs w1) as [rs' w2].
  unfold bind, timeNow, withManager, cache.SetJSON, ret, logWrite.
  destruct (marshalSearchResponse E _) as [js|err]; done.
Qed.

Lemma Search_hit (query : gostring) (limit : Z) (w : World)
  (resp : SearchResponse) :
  cache.GetJSON (unmarshalSearchResponse E) (manager w) (clock w)
    (searchCacheKey E query) zeroSearchResponse = (resp, true) ->
  (Search E query limit w).1 = Ok resp /\
  manager (Search E query limit w).2 = manager w /\
  clock (Search E query limit w).2 = clock w /\
  sent (Search E query limit w).2 = sent w.
Proof.
  intros H. rewrite Search_unfold, H. done.
Qed.

Lemma Search_miss_err (query : gostring) (limit : Z) (w : World) (err : error) :
  cacheMiss E query w ->
  (performSearch E query limit (afterMissLine query w)).1 = Err err ->
  Search E query limit w
  = (Err (ErrWrap (str "search failed") err),
     (performSearch E query limit (afterMissLine query w)).2).
Proof.
  unfold cacheMiss. intros Hmiss Hp. rewrite Search_unfold.
  destruct (cache.GetJSON _ _ _ _ _) as [x b]. simpl in Hmiss. subst b.
  destruct (performSearch E query limit _) as [[rs|e] w1]; simpl in Hp; [done|].
  by injection Hp as ->.
Qed.

Lemma Search_miss_ok (query : gostring) (limit : Z) (w : World)
  (rs : list SearchResult) :
  cacheMiss E query w ->
  (performSearch E query limit (afterMissLine query w)).1 = Ok rs ->
  Search E query limit w
  = missOutcome E query rs
      (performSearch E query limit (afterMissLine query w)).2.
Proof.
  unfold cacheMiss. intros Hmiss Hp. rewrite Search_unfold.
  destruct (cache.GetJSON _ _ _ _ _) as [x b]. simpl in Hmiss. subst b.
  destruct (performSearch E query limit _) as [[rs0|e] w1]; simpl in Hp; [|done].
  by injection Hp as ->.
Qed.

(** [performSearch] leaves [URL] and [Extract] of its results empty. *)
Lemma convertResults_blank (apiResponse : WikiAPIResponse.t) :
  Forall (fun r => URL r = [] /\ Extract r = []) (convertResults apiResponse).
Proof.
  unfold convertResults. apply Forall_map, Forall_true. done.
Qed.

Lemma performSearch_blank (query : gostring) (limit : Z) (w : World)
  (rs : list SearchResult) :
  (performSearch E query limit w).1 = Ok rs ->
  Forall (fun r => URL r = [] /\ Extract r = []) rs.
Proof.
  unfold performSearch, bind, httpDo, ret.
  destruct (roundTrip E _ _ _) as [[msg|code body] arrival]; [done|].
  destruct (negb (code =? 200)); [done|].
  destruct (decodeWikiAPIResponse E body) as [api|err]; [|done].
  intros [= <-]. apply convertResults_blank.
Qed.

Lemma enhance_cons (r : SearchResult) (rest : list SearchResult) (w : World) :
  enhance E (r :: rest) w
  = (enhanced r (getPageExtract E (Title r) w).1
       :: (enhance E rest (afterRound E r w)).1,
     (enhance E rest (afterRound E r w)).2).
Proof.
  cbn [enhance]. unfold afterRound, bind at 1.
  destruct (getPageExtract E (Title r) w) as [[extract|err] w0].
  - unfold bind, ret. by destruct (enhance E rest w0).
  - unfold bind at 1. unfold bind at 1.
    destruct (logWrite _ _ _ w0) as [[] w0']. cbn [snd].
    unfold bind, ret. by destruct (enhance E rest w0').
Qed.

Lemma enhance_length (rs : list SearchResult) (w : World) :
  length (enhance E rs w).1 = length rs.
Proof.
  revert w. induction rs as [|r rest IH]; intros w; [done|].
  rewrite enhance_cons. simpl. by rewrite IH.
Qed.

Lemma enhance_lookup (rs : list SearchResult) (w : World) (i : nat)
  (r : SearchResult) :
  rs !! i = Some r ->
  (enhance E rs w).1 !! i
  = Some (enhanced r
            (getPageExtract E (Title r) (enhance E (take i rs) w).2).1).
Proof.
  revert w i. induction rs as [|r0 rest IH]; intros w i Hi; [done|].
  destruct i as [|i]; simpl in Hi.
  - injection Hi as ->. by rewrite enhance_cons.
  - cbn [take]. rewrite !enhance_cons. cbn [fst snd]. by apply IH.
Qed.

End Facts.

(** [Search] never looks at [totalhits]. *)
Lemma performSearch_withTotalHits (n : Z) (E : Env) (query : gostring)
  (limit : Z) (w : World) :
  performSearch (withTotalHits n E) query limit w = performSearch E query limit w.
Proof.
  unfold performSearch, bind, httpDo, ret, withTotalHits.
  cbn [roundTrip decodeWikiAPIResponse].
  destruct (roundTrip E _ _ _) as [[msg|code body] arrival]; [done|].
  destruct (negb (code =? 200)); [done|].
  destruct (decodeWikiAPIResponse E body) as [api|err]; done.
Qed.

Lemma enhance_withTotalHits (n : Z) (E : Env) (rs : list SearchResult)
  (w : World) :
  enhance (withTotalHits n E) rs w = enhance E rs w.
Proof.
  revert w. induction rs as [|r rest IH]; intros w; [done|].
  rewrite !enhance_cons.
  change (getPageExtract (withTotalHits n E)) with (getPageExtract E).
  change (afterRound (withTotalHits n E)) with (afterRound E).
  by rewrite IH.
Qed.

(** The short circuit of the specification, end to end: after a search that
    went to the wiki and stored its response, the same query (with any
    limit) is answered from the cache and nothing more is sent, as long as
    [encoding/json] reads back what it wrote and the day has not passed. *)
Lemma Search_again (E : Env) (query : gostring) (limit limit' : Z) (w : World)
  (rs : list SearchResult) (resp : SearchResponse) (jsonData : gostring) :
  cacheMiss E query w ->
  (performSearch E query limit (afterMissLine query w)).1 = Ok rs ->
  (Search E query limit w).1 = Ok resp ->
  marshalSearchResponse E resp = Ok jsonData ->
  unmarshalSearchResponse E jsonData zeroSearchResponse = (resp, None) ->
  0 <= clock (Search E query limit w).2 ->
  clock (Search E query limit w).2 + cache.WikiDataTTL < 2 ^ 63 ->
  (Search E query limit' (Search E query limit w).2).1 = Ok resp /\
  sent (Search E query limit' (Search E query limit w).2).2
  = sent (Search E query limit w).2.
Proof.
  intros Hmiss Hp. rewrite (Search_miss_ok E query limit w rs Hmiss Hp).
  unfold missOutcome. destruct (enhance E rs _) as [rs' w2].
  destruct (marshalSearchResponse E _) as [js|err] eqn:Hm; cbn [fst snd];
    intros [= <-] Hjs Hun H0 Hmax; rewrite Hm in Hjs; [|done].
  injection Hjs as ->. cbn [clock] in H0, Hmax.
  match goal with
  | |- context [Search E query limit' ?w'] =>
      destruct (Search_hit E query limit' w'
                  {| Query := query; Results := rs';
                     Total := Z.of_nat (length rs'); SearchedAt := clock w2 |})
        as (H1 & _ & _ & H4); [|done]
  end.
  unfold cache.GetJSON, cache.Set_. cbn [manager clock cache.cache].
  rewrite cache_facts.Get_Set_eq. cbn zeta.
  change (cache.WikiDataTTL =? 0) with false. cbn match.
  change (0 <? cache.WikiDataTTL) with true. cbn match.
  assert (0 < cache.WikiDataTTL) by done.
  rewrite cache_facts.wrap64_small by lia.
  assert ((0 <? clock w2 + cache.WikiDataTTL) = true) as ->
    by (apply Z.ltb_lt; lia).
  assert ((clock w2 + cache.WikiDataTTL <? clock w2) = false) as ->
    by (apply Z.ltb_ge; lia).
  cbn [andb]. by rewrite Hun.
Qed.


End search_facts.

Lemma GetJSON_hit (E : Env) (key : gostring) (w : World) (it : gocache.Item)
  (jsonStr : gostring) (resp : SearchResponse) :
  gocache.items (cache.cache (manager w)) !! key = Some it ->
  gocache.expired (clock w) it = false ->
  gocache.Object it = AnyString jsonStr ->
  unmarshalSearchResponse E jsonStr zeroSearchResponse = (resp, None) ->
  cache.GetJSON (unmarshalSearchResponse E) (manager w) (clock w) key
    zeroSearchResponse = (resp, true).
Proof.
  intros Hk Hx Ho Hu. unfold cache.GetJSON, gocache.Get.
  by rewrite Hk, Hx, Ho, Hu.
Qed.

(** C1: when the cache holds, under the key of the query, an entry that is
    not expired and whose text [json.Unmarshal] reads as [resp], [Search]
    returns [resp] as it is, sends no request (neither search nor extract)
    and leaves the cache as it was (nothing is fetched, checked or stored
    again). *)
Theorem Search_cache_hit (E : Env) (query : gostring) (limit : Z) (w : World)
  (it : gocache.Item) (jsonStr : gostring) (resp : SearchResponse) :
  gocache.items (cache.cache (manager w)) !! searchCacheKey E query = Some it ->
  gocache.expired (clock w) it = false ->
  gocache.Object it = AnyString jsonStr ->
  unmarshalSearchResponse E jsonStr zeroSearchResponse = (resp, None) ->
  (Search E query limit w).1 = Ok resp /\
  sent (Search E query limit w).2 = sent w /\
  manager (Search E query limit w).2 = manager w.
Proof.
  intros Hk Hx Ho Hu.
  destruct (search_facts.Search_hit E query limit w resp) as (H1 & H2 & _ & H4).
  - by eapply GetJSON_hit.
  - done.
Qed.

(** The cache test of the repository: [mockResponse] is stored under the
    key of [test query], and [Search] returns it. *)
Lemma Search_cache_hit_witness :
  let it := {| gocache.Object := AnyString (str "R:test query");
               gocache.Expiration := 1688212860000000000 |} in
  (gocache.items (cache.cache (manager mockWorld))
     !! searchCacheKey mockEnv (str "test query") = Some it /\
   gocache.expired (clock mockWorld) it = false /\
   gocache.Object it = AnyString (str "R:test query") /\
   unmarshalSearchResponse mockEnv (str "R:test query") zeroSearchResponse
   = (mockResponse, None)) /\
  (Search mockEnv (str "test query") 5 mockWorld).1 = Ok mockResponse /\
  sent (Search mockEnv (str "test query") 5 mockWorld).2 = sent mockWorld /\
  manager (Search mockEnv (str "test query") 5 mockWorld).2 = manager mockWorld.
Proof.
  intros it.
  assert (H1 : gocache.items (cache.cache (manager mockWorld))
                 !! searchCacheKey mockEnv (str "test query") = Some it)
    by (vm_compute; reflexivity).
  assert (H2 : gocache.expired (clock mockWorld) it = false) by reflexivity.
  assert (H3 : gocache.Object it = AnyString (str "R:test query"))
    by reflexivity.
  assert (H4 : unmarshalSearchResponse mockEnv (str "R:test query")
                 zeroSearchResponse = (mockResponse, None)) by reflexivity.
  split; [done|].
  exact (Search_cache_hit mockEnv (str "test query") 5 mockWorld it
           (str "R:test query") mockResponse H1 H2 H3 H4).
Defined.

(** C10: the key is made from the query alone.  When the cache holds a
    valid entry for a query, [Search] returns that response for every query
    with the same normalized text and for every limit, and sends nothing:
    the limit neither causes a fetch nor changes the results returned. *)
Theorem Search_ignores_limit (E : Env) (query : gostring) (w : World)
  (it : gocache.Item) (jsonStr : gostring) (resp : SearchResponse) :
  gocache.items (cache.cache (manager w)) !! searchCacheKey E query = Some it ->
  gocache.expired (clock w) it = false ->
  gocache.Object it = AnyString jsonStr ->
  unmarshalSearchResponse E jsonStr zeroSearchResponse = (resp, None) ->
  forall (query' : gostring) (limit limit' : Z),
    ToLower E (strings.TrimSpace query') = ToLower E (strings.TrimSpace query) ->
    searchCacheKey E query' = searchCacheKey E query /\
    (Search E query limit w).1 = Ok resp /\
    (Search E query' limit' w).1 = Ok resp /\
    sent (Search E query' limit' w).2 = sent w.
Proof.
  intros Hk Hx Ho Hu query' limit limit' Hn.
  assert (Hkey : searchCacheKey E query' = searchCacheKey E query)
    by (unfold searchCacheKey; by rewrite Hn).
  split; [done|].
  destruct (search_facts.Search_hit E query limit w resp) as (H1 & _);
    [by eapply GetJSON_hit|].
  destruct (search_facts.Search_hit E query' limit' w resp) as (H2 & _ & _ & H3);
    [rewrite Hkey; by eapply GetJSON_hit|].
  done.
Qed.

Lemma Search_ignores_limit_witness :
  let it := {| gocache.Object := AnyString (str "R:test query");
               gocache.Expiration := 1688212860000000000 |} in
  (gocache.items (cache.cache (manager mockWorld))
     !! searchCacheKey mockEnv (str "test query") = Some it /\
   gocache.expired (clock mockWorld) it = false /\
   gocache.Object it = AnyString (str "R:test query") /\
   unmarshalSearchResponse mockEnv (str "R:test query") zeroSearchResponse
   = (mockResponse, None) /\
   ToLower mockEnv (strings.TrimSpace (str " Test Query"))
   = ToLower mockEnv (strings.TrimSpace (str "test query"))) /\
  searchCacheKey mockEnv (str " Test Query")
  = searchCacheKey mockEnv (str "test query") /\
  (Search mockEnv (str "test query") 5 mockWorld).1 = Ok mockResponse /\
  (Search mockEnv (str " Test Query") 50 mockWorld).1 = Ok mockResponse /\
  sent (Search mockEnv (str " Test Query") 50 mockWorld).2 = sent mockWorld.
Proof.
  intros it.
  assert (H1 : gocache.items (cache.cache (manager mockWorld))
                 !! searchCacheKey mockEnv (str "test query") = Some it)
    by (vm_compute; reflexivity).
  assert (H2 : gocache.expired (clock mockWorld) it = false) by reflexivity.
  assert (H3 : gocache.Object it = AnyString (str "R:test query"))
    by reflexivity.
  assert (H4 : unmarshalSearchResponse mockEnv (str "R:test query")
                 zeroSearchResponse = (mockResponse, None)) by reflexivity.
  assert (H5 : ToLower mockEnv (strings.TrimSpace (str " Test Query"))
               = ToLower mockEnv (strings.TrimSpace (str "test query")))
    by reflexivity.
  split; [done|].
  exact (Search_ignores_limit mockEnv (str "test query") mockWorld it
           (str "R:test query") mockResponse H1 H2 H3 H4
           (str " Test Query") 5 50 H5).
Defined.

(** C9: a response that [Search] assembles after a fetch has [Total] equal
    to the number of its [Results]; [query.searchinfo.totalhits] of the
    reply is decoded and never read: with any other value in its place
    [Search] does the same. *)
Theorem Search_total (E : Env) (query : gostring) (limit : Z) (w : World)
  (resp : SearchResponse) :
  cacheMiss E query w ->
  (Search E query limit w).1 = Ok resp ->
  Total resp = Z.of_nat (length (Results resp)) /\
  forall n, Search (withTotalHits n E) query limit w = Search E query limit w.
Proof.
  intros Hmiss Hok. split.
  - destruct (performSearch E query limit (afterMissLine query w)) as [[rs|err] w1]
      eqn:Hp.
    + rewrite (search_facts.Search_miss_ok E query limit w rs Hmiss) in Hok
        by by rewrite Hp.
      unfold missOutcome in Hok.
      destruct (enhance E rs _) as [rs' w2].
      destruct (marshalSearchResponse E _); by injection Hok as <-.
    + rewrite (search_facts.Search_miss_err E query limit w err Hmiss) in Hok
        by by rewrite Hp.
      done.
  - intros n. rewrite !search_facts.Search_unfold.
    change (unmarshalSearchResponse (withTotalHits n E))
      with (unmarshalSearchResponse E).
    change (searchCacheKey (withTotalHits n E)) with (searchCacheKey E).
    destruct (cache.GetJSON _ _ _ _ _) as [x [|]]; [done|].
    rewrite search_facts.performSearch_withTotalHits.
    destruct (performSearch E query limit _) as [[rs|err] w1]; [|done].
    unfold missOutcome. rewrite search_facts.enhance_withTotalHits.
    done.
Qed.

Lemma Search_total_witness :
  let resp :=
    {| Query := str "Dragon Bash";
       Results :=
         [ {| Title := str "Dragon Bash"; PageID := 12345; Size := 5000;
              WordCount := 800; Snippet := str "Dragon Bash is a festival";
              Timestamp := str "2023-07-01T12:00:00Z";
              URL := str "https://wiki.guildwars2.com/wiki/Dragon+Bash";
              Extract := str "Dragon Bash is an annual festival." |} ];
       Total := 1;
       SearchedAt := 1688212800002000000 |} in
  (cacheMiss dragonEnv (str "Dragon Bash") freshWorld /\
   (Search dragonEnv (str "Dragon Bash") 5 freshWorld).1 = Ok resp) /\
  Total resp = Z.of_nat (length (Results resp)) /\
  forall n, Search (withTotalHits n dragonEnv) (str "Dragon Bash") 5 freshWorld
            = Search dragonEnv (str "Dragon Bash") 5 freshWorld.
Proof.
  intros resp.
  assert (H1 : cacheMiss dragonEnv (str "Dragon Bash") freshWorld)
    by reflexivity.
  assert (H2 : (Search dragonEnv (str "Dragon Bash") 5 freshWorld).1 = Ok resp)
    by (vm_compute; reflexivity).
  split; [done|].
  exact (Search_total dragonEnv (str "Dragon Bash") 5 freshWorld resp H1 H2).
Defined.

(** C6, as the specification states it, fails: the response is stored under
    the key of the normalized query.  After a search for [Dragon Bash] the
    cache has an entry under [wiki:search:dragon bash] and none under
    [wiki:search:Dragon Bash]. *)
Lemma Search_stores_under_normalized_key :
  let w' := (Search dragonEnv (str "Dragon Bash") 5 freshWorld).2 in
  gocache.items (cache.cache (manager w'))
    !! cache.GetWikiSearchKey (str "Dragon Bash") = None /\
  gocache.items (cache.cache (manager w'))
    !! cache.GetWikiSearchKey (str "dragon bash")
  = Some {| gocache.Object := AnyString (str "R:Dragon Bash");
            gocache.Expiration := 1688212800002000000 + cache.WikiDataTTL |}.
Proof. split; vm_compute; reflexivity. Qed.

(** C6, amended: after a cache miss and a successful search request,
    [Search] returns the assembled response, whose [Query] is the query as
    it was given; it stores the text of that response under the key it
    looked up, the one derived from the normalized (trimmed, lower-cased)
    query, to expire [WikiDataTTL] (one day) after the store; and when
    [json.Marshal] fails nothing is stored and the response is returned all
    the same. *)
Theorem Search_stores (E : Env) (query : gostring) (limit : Z) (w : World)
  (rs : list SearchResult) :
  cacheMiss E query w ->
  (performSearch E query limit (afterMissLine query w)).1 = Ok rs ->
  let w1 := (performSearch E query limit (afterMissLine query w)).2 in
  let rs' := (enhance E rs w1).1 in
  let w2 := (enhance E rs w1).2 in
  let resp := {| Query := query; Results := rs';
                 Total := Z.of_nat (length rs'); SearchedAt := clock w2 |} in
  let key := cache.GetWikiSearchKey (ToLower E (strings.TrimSpace query)) in
  let w' := (Search E query limit w).2 in
  (Search E query limit w).1 = Ok resp /\
  match marshalSearchResponse E resp with
  | Ok jsonData =>
      gocache.items (cache.cache (manager w'))
      = <[key := {| gocache.Object := AnyString jsonData;
                    gocache.Expiration :=
                      wrap64 (clock w2 + cache.WikiDataTTL) |}]>
          (gocache.items (cache.cache (manager w2)))
  | Err _ => manager w' = manager w2
  end.
Proof.
  intros Hmiss Hp. cbn zeta.
  rewrite (search_facts.Search_miss_ok E query limit w rs Hmiss Hp).
  unfold missOutcome.
  destruct (enhance E rs _) as [rs' w2]. cbn [fst snd].
  destruct (marshalSearchResponse E _) as [js|err]; done.
Qed.

Lemma Search_stores_witness :
  let rs := convertResults
              {| WikiAPIResponse.BatchComplete := [];
                 WikiAPIResponse.Search := [dragonBash];
                 WikiAPIResponse.TotalHits := 1 |} in
  (cacheMiss dragonEnv (str "Dragon Bash") freshWorld /\
   (performSearch dragonEnv (str "Dragon Bash") 5
      (afterMissLine (str "Dragon Bash") freshWorld)).1 = Ok rs) /\
  Query <$> (match (Search dragonEnv (str "Dragon Bash") 5 freshWorld).1 with
             | Ok resp => Some resp
             | Err _ => None
             end) = Some (str "Dragon Bash") /\
  gocache.Expiration <$>
    (gocache.items
       (cache.cache (manager (Search dragonEnv (str "Dragon Bash") 5 freshWorld).2))
       !! str "wiki:search:dragon bash")
  = Some (1688212800002000000 + 86400000000000).
Proof.
  intros rs.
  assert (H1 : cacheMiss dragonEnv (str "Dragon Bash") freshWorld)
    by reflexivity.
  assert (H2 : (performSearch dragonEnv (str "Dragon Bash") 5
                  (afterMissLine (str "Dragon Bash") freshWorld)).1 = Ok rs)
    by reflexivity.
  split; [done|].
  pose proof (Search_stores dragonEnv (str "Dragon Bash") 5 freshWorld rs H1 H2)
    as [Hok Hitems].
  split.
  - by rewrite Hok.
  - cbn [marshalSearchResponse dragonEnv demoEnv] in Hitems.
    rewrite Hitems. vm_compute. reflexivity.
Defined.

(** C5, as the specification states it, fails in one direction: a result
    can have an empty extract without its fetch having failed.  The wiki
    finds two pages; the extract request for [Dragon Bash] succeeds with an
    empty text (the page has no introduction), the one for [Zephyrite]
    fails with status 500.  [Search] succeeds and both results have an empty
    [Extract], the one that failed and the one that did not. *)
Lemma Search_empty_extract_without_failure :
  let E := bareEnv in
  let query := str "dragon" in
  let w1 := (performSearch E query 5 (afterMissLine query freshWorld)).2 in
  let rs := convertResults
              {| WikiAPIResponse.BatchComplete := [];
                 WikiAPIResponse.Search :=
                   [dragonBash; hitTitled (str "Zephyrite")];
                 WikiAPIResponse.TotalHits := 2 |} in
  (performSearch E query 5 (afterMissLine query freshWorld)).1 = Ok rs /\
  (getPageExtract E (str "Dragon Bash") (enhance E (take 0 rs) w1).2).1
  = Ok [] /\
  (getPageExtract E (str "Zephyrite") (enhance E (take 1 rs) w1).2).1
  = Err (ErrExtractStatus 500) /\
  (Title <$> (match (Search E query 5 freshWorld).1 with
              | Ok resp => Results resp
              | Err _ => []
              end) = [str "Dragon Bash"; str "Zephyrite"]) /\
  (Extract <$> (match (Search E query 5 freshWorld).1 with
                | Ok resp => Results resp
                | Err _ => []
                end) = [[]; []]).
Proof. repeat split; vm_compute; reflexivity. Qed.

(** C5, amended: after a cache miss and a successful search request that
    decoded the results [rs], [Search] succeeds whatever the extract
    fetches do, and its response holds one result for each of [rs], in
    order, with the decoded fields unchanged and the URL field set.  The
    extract of a result whose fetch failed is empty; the extract of a
    result whose fetch succeeded is the text that fetch returned (which
    can be empty too). *)
Theorem Search_extract_failures (E : Env) (query : gostring) (limit : Z)
  (w : World) (rs : list SearchResult) :
  cacheMiss E query w ->
  (performSearch E query limit (afterMissLine query w)).1 = Ok rs ->
  let w1 := (performSearch E query limit (afterMissLine query w)).2 in
  exists resp,
    (Search E query limit w).1 = Ok resp /\
    length (Results resp) = length rs /\
    forall (i : nat) (r : SearchResult),
      rs !! i = Some r ->
      exists r',
        Results resp !! i = Some r' /\
        Title r' = Title r /\ PageID r' = PageID r /\ Size r' = Size r /\
        WordCount r' = WordCount r /\ Snippet r' = Snippet r /\
        Timestamp r' = Timestamp r /\
        URL r' = resultURL (Title r) /\
        Extract r'
        = match (getPageExtract E (Title r) (enhance E (take i rs) w1).2).1 with
          | Ok extract => extract
          | Err _ => []
          end.
Proof.
  intros Hmiss Hp w1.
  pose proof (search_facts.performSearch_blank E _ _ _ _ Hp) as Hblank.
  rewrite (search_facts.Search_miss_ok E query limit w rs Hmiss Hp).
  fold w1. unfold missOutcome.
  pose proof (search_facts.enhance_length E rs w1) as Hlen.
  pose proof (search_facts.enhance_lookup E rs w1) as Hlook.
  destruct (enhance E rs w1) as [rs' w2] eqn:Hen. cbn [fst] in Hlen, Hlook.
  eexists. split.
  { destruct (marshalSearchResponse E _); reflexivity. }
  cbn [Results]. split; [done|].
  intros i r Hi. eexists. split; [by apply Hlook|].
  unfold enhanced.
  cbn [Title PageID Size WordCount Snippet Timestamp URL Extract].
  do 7 (split; [done|]).
  destruct (getPageExtract E (Title r) (enhance E (take i rs) w1).2)
    as [[extract|err] w0]; [done|].
  cbn [fst]. by apply (Forall_lookup_1 _ _ _ _ Hblank Hi).
Qed.

Lemma Search_extract_failures_witness :
  let rs := convertResults
              {| WikiAPIResponse.BatchComplete := [];
                 WikiAPIResponse.Search :=
                   [hitTitled (str "Dragon Bash"); hitTitled (str "Zephyrite");
                    hitTitled (str "Festival")];
                 WikiAPIResponse.TotalHits := 3 |} in
  (cacheMiss flakyEnv (str "festival") freshWorld /\
   (performSearch flakyEnv (str "festival") 5
      (afterMissLine (str "festival") freshWorld)).1 = Ok rs) /\
  exists resp,
    (Search flakyEnv (str "festival") 5 freshWorld).1 = Ok resp /\
    length (Results resp) = 3%nat /\
    Extract <$> Results resp
    = [str "Dragon Bash is an annual festival."; [];
       str "Festival is an annual festival."].
Proof.
  intros rs.
  assert (H1 : cacheMiss flakyEnv (str "festival") freshWorld) by reflexivity.
  assert (H2 : (performSearch flakyEnv (str "festival") 5
                  (afterMissLine (str "festival") freshWorld)).1 = Ok rs)
    by reflexivity.
  split; [done|].
  destruct (Search_extract_failures flakyEnv (str "festival") 5 freshWorld rs
              H1 H2) as (resp & Hok & Hlen & _).
  exists resp. split; [done|]. split; [done|].
  revert Hok. vm_compute. intros [= <-]. reflexivity.
Defined.

(** C3 on the code: for the result titled [Dragon Bash], [Search] sets the
    URL to [.../wiki/Dragon+Bash].  It escapes the title with
    [url.QueryEscape], which writes a space as [+]; the URL of the
    specification and of the repository's own test is the one
    [url.PathEscape] gives, with [%20]. *)
Theorem Search_url_Dragon_Bash :
  URL <$> (match (Search dragonEnv (str "Dragon Bash") 5 freshWorld).1 with
           | Ok resp => Results resp
           | Err _ => []
           end)
  = [str "https://wiki.guildwars2.com/wiki/Dragon+Bash"] /\
  resultURL (str "Dragon Bash")
  = str "https://wiki.guildwars2.com/wiki/Dragon+Bash" /\
  wikiBaseURL ++ str "/wiki/" ++ url.PathEscape (str "Dragon Bash")
  = str "https://wiki.guildwars2.com/wiki/Dragon%20Bash".
Proof. repeat split; vm_compute; reflexivity. Qed.

(** The URL test of the repository passes on [url.PathEscape]. *)
Example PathEscape_test_titles :
  wikiBaseURL ++ str "/wiki/" ++ url.PathEscape (str "API:Account/wallet")
  = str "https://wiki.guildwars2.com/wiki/API:Account%2Fwallet" /\
  wikiBaseURL ++ str "/wiki/"
    ++ url.PathEscape (str "Living World Season 4: Episode 1")
  = str "https://wiki.guildwars2.com/wiki/Living%20World%20Season%204:%20Episode%201".
Proof. split; vm_compute; reflexivity. Qed.

(** ** The key of a query *)

Module key_facts.
Import strings.






Section Fold.

Variable lower : rune -> rune.
Hypothesis lower_space : forall r, IsSpace (lower r) = IsSpace r.
Hypothesis lower_lower : forall r, lower (lower r) = lower r.






End Fold.

(** The case table of the examples keeps white space and is idempotent. *)
Lemma IsSpace_false (r : rune) :
  (14 <= r <= 31 \/ 33 <= r <= 132 \/ 161 <= r <= 5759) -> IsSpace r = false.
Proof.
  intros H. unfold IsSpace.
  repeat (apply orb_false_intro);
    first [ apply Z.eqb_neq; lia
          | apply andb_false_iff; left; apply Z.leb_gt; lia ].
Qed.

Lemma latin1_cases (r : rune) :
  unicode.ToLower latin1ToLower r = r \/
  (unicode.ToLower latin1ToLower r = r + 32 /\
   (65 <= r <= 90 \/ 192 <= r <= 222)).
Proof.
  unfold unicode.ToLower, latin1ToLower.
  destruct (Z.leb_spec r 127).
  - destruct (Z.leb_spec 65 r), (Z.leb_spec r 90); cbn [andb];
      first [by left | right; split; lia].
  - destruct (Z.leb_spec 192 r), (Z.leb_spec r 222), (Z.eqb_spec r 215);
      cbn [andb negb]; first [by left | right; split; lia].
Qed.

Lemma latin1_space (r : rune) :
  IsSpace (unicode.ToLower latin1ToLower r) = IsSpace r.
Proof.
  destruct (latin1_cases r) as [H | [H Hr]]; rewrite H; [done|].
  rewrite !IsSpace_false; [done|lia..].
Qed.

Lemma latin1_lower (r : rune) :
  unicode.ToLower latin1ToLower (unicode.ToLower latin1ToLower r)
  = unicode.ToLower latin1ToLower r.
Proof.
  destruct (latin1_cases r) as [H | [H Hr]]; rewrite H; [exact H|].
  destruct (latin1_cases (r + 32)) as [H' | [_ H']]; [exact H'|lia].
Qed.

End key_facts.


(** The Greek table has the two properties the theorem below asks of a case
    table: the pair above is left out by the relation between the queries,
    not by the table. *)
Lemma greekToLower_table (r : rune) :
  strings.IsSpace (unicode.ToLower greekToLower r) = strings.IsSpace r /\
  unicode.ToLower greekToLower (unicode.ToLower greekToLower r)
  = unicode.ToLower greekToLower r.
Proof.
  assert (Hc : forall x,
             unicode.ToLower greekToLower x = x \/
             (unicode.ToLower greekToLower x = x + 32 /\
              (65 <= x <= 90 \/ 913 <= x <= 939))).
  { intros x. unfold unicode.ToLower, greekToLower.
    destruct (Z.leb_spec x 127).
    - destruct (Z.leb_spec 65 x), (Z.leb_spec x 90); cbn [andb];
        first [by left | right; split; lia].
    - destruct (Z.leb_spec 913 x), (Z.leb_spec x 929), (Z.leb_spec 931 x),
        (Z.leb_spec x 939); cbn [andb orb];
        first [by left | right; split; lia]. }
  destruct (Hc r) as [H | [H Hr]]; rewrite H; [done|]. split.
  - rewrite !key_facts.IsSpace_false; [done|lia..].
  - destruct (Hc (r + 32)) as [H' | [H' Hr']]; [done|].
    exfalso. unfold unicode.ToLower, greekToLower in H'.
    destruct (Z.leb_spec (r + 32) 127).
    + destruct (Z.leb_spec 65 (r + 32)), (Z.leb_spec (r + 32) 90);
        cbn [andb] in H'; lia.
    + destruct (Z.leb_spec 913 (r + 32)), (Z.leb_spec (r + 32) 929),
        (Z.leb_spec 931 (r + 32)), (Z.leb_spec (r + 32) 939);
        cbn [andb orb] in H'; lia.
Qed.



(** * Further properties *)

(** ** The cache manager, operation by operation *)

Module manager_facts.

Lemma Get_Set_fresh (m : cache.Manager) (t now d : Z) (key : gostring)
  (value : any) :
  0 < d -> 0 <= t -> t + d < 2 ^ 63 ->
  cache.Get (cache.Set_ m t key value d) now key
  = if now <=? t + d then (value, true) else (AnyNil, false).
Proof.
  intros Hd Ht Hmax. unfold cache.Get, cache.Set_. cbn [cache.cache].
  rewrite cache_facts.Get_Set_eq. cbn zeta.
  assert ((d =? 0) = false) as -> by lia.
  assert ((0 <? d) = true) as -> by lia.
  rewrite cache_facts.wrap64_small by lia.
  assert ((0 <? t + d) = true) as -> by lia.
  cbn [andb].
  destruct (Z.leb_spec now (t + d)), (Z.ltb_spec (t + d) now); done || lia.
Qed.

Lemma GetString_Set_fresh (m : cache.Manager) (t now d : Z)
  (key s : gostring) :
  0 < d -> 0 <= t -> t + d < 2 ^ 63 ->
  cache.GetString (cache.Set_ m t key (AnyString s) d) now key
  = if now <=? t + d then (s, true) else ([], false).
Proof.
  intros Hd Ht Hmax. unfold cache.GetString.
  change (gocache.Get (cache.cache ?m) ?n ?k) with (cache.Get m n k).
  rewrite Get_Set_fresh by done.
  by destruct (now <=? t + d).
Qed.

Lemma str_inj (a b : string) : str a = str b -> a = b.
Proof.
  revert b. induction a as [|x a IH]; intros [|y b]; simpl; try done.
  intros [= Hxy Hab]. f_equal; [|by apply IH].
  apply N2Z.inj in Hxy.
  rewrite <- (ascii_N_embedding x), <- (ascii_N_embedding y). by rewrite Hxy.
Qed.

Lemma to_int_proper (n : Z) :
  Z.to_int n <> Decimal.Pos Decimal.Nil /\ Z.to_int n <> Decimal.Neg Decimal.Nil.
Proof.
  destruct n as [|p|p]; simpl; split; try done; intros [= H];
    by apply DecimalPos.Unsigned.to_uint_nonnil in H.
Qed.

Lemma Sprintd_inj (a b : Z) : fmt.Sprintd a = fmt.Sprintd b -> a = b.
Proof.
  unfold fmt.Sprintd. intros H%str_inj.
  apply DecimalZ.to_int_inj.
  destruct (to_int_proper a) as [Ha1 Ha2], (to_int_proper b) as [Hb1 Hb2].
  pose proof (NilZero.isi _ Ha1 Ha2) as Ia.
  pose proof (NilZero.isi _ Hb1 Hb2) as Ib.
  rewrite H in Ia. rewrite Ia in Ib. by injection Ib.
Qed.

End manager_facts.

(** X1: a string stored with [Set] under a duration [d > 0] is what
    [GetString] returns as long as the entry is not expired, and after
    that [GetString] reports the empty string and not-found.  The entry
    expires at the int64 value of [t + d] when that is positive.  With the
    store time [t] not before 1970 and [t + d] within int64 that is: the
    string is returned until [d] has passed.  When [t + d] goes beyond
    int64 and wraps to a value that is not positive, the string is returned
    at every time. *)
Theorem GetString_after_Set (m : cache.Manager) (t now d : Z)
  (key s : gostring) :
  0 < d ->
  let m' := cache.Set_ m t key (AnyString s) d in
  cache.GetString m' now key
  = (if (0 <? wrap64 (t + d)) && (wrap64 (t + d) <? now)
     then ([], false) else (s, true)) /\
  (0 <= t -> t + d < 2 ^ 63 ->
   cache.GetString m' now key
   = if now <=? t + d then (s, true) else ([], false)) /\
  (wrap64 (t + d) <= 0 -> cache.GetString m' now key = (s, true)).
Proof.
  intros Hd m'.
  assert (Hgen : cache.GetString m' now key
                 = (if (0 <? wrap64 (t + d)) && (wrap64 (t + d) <? now)
                    then ([], false) else (s, true))).
  { unfold m', cache.GetString, cache.Set_. cbn [cache.cache].
    rewrite cache_facts.Get_Set_eq. cbn zeta.
    assert ((d =? 0) = false) as -> by lia.
    assert ((0 <? d) = true) as -> by lia.
    by destruct ((0 <? wrap64 (t + d)) && (wrap64 (t + d) <? now)). }
  split; [done|]. split.
  - intros Ht Hmax. by apply manager_facts.GetString_Set_fresh.
  - intros Hwrap. rewrite Hgen.
    assert ((0 <? wrap64 (t + d)) = false) as -> by lia. done.
Qed.

Lemma GetString_after_Set_witness :
  let t := 1688212800000000000 in
  let d := cache.WikiDataTTL in
  let now := t + cache.Hour in
  0 < d /\
  let m' := cache.Set_ cache.NewManager t (str "wiki:page:Dragon Bash")
              (AnyString (str "A festival.")) d in
  cache.GetString m' now (str "wiki:page:Dragon Bash")
  = (if (0 <? wrap64 (t + d)) && (wrap64 (t + d) <? now)
     then ([], false) else (str "A festival.", true)) /\
  (0 <= t -> t + d < 2 ^ 63 ->
   cache.GetString m' now (str "wiki:page:Dragon Bash")
   = if now <=? t + d then (str "A festival.", true) else ([], false)) /\
  (wrap64 (t + d) <= 0 ->
   cache.GetString m' now (str "wiki:page:Dragon Bash")
   = (str "A festival.", true)).
Proof.
  intros t d now. split; [done|].
  exact (GetString_after_Set cache.NewManager t now d
           (str "wiki:page:Dragon Bash") (str "A festival.") eq_refl).
Defined.

(** X2: [GetString] finds the string [s] exactly when [Get] finds a value
    that is the string [s]; in every other case (no entry, an expired
    entry, a value of another type) it returns the empty string and
    false. *)
Theorem GetString_spec (m : cache.Manager) (now : Z) (key s : gostring) :
  (cache.GetString m now key = (s, true) <->
   cache.Get m now key = (AnyString s, true)) /\
  ((cache.GetString m now key).2 = false ->
   cache.GetString m now key = ([], false)).
Proof.
  unfold cache.GetString, cache.Get.
  destruct (gocache.Get (cache.cache m) now key) as [[|s'| |] [|]];
    split; try done; split; congruence.
Qed.

(** X3: what [SetJSON] stores, [GetJSON] reads back.  When [json.Marshal]
    writes [value] as [jsonData] and [json.Unmarshal] reads [jsonData] into
    [dest] as [value'], then [SetJSON(key, value, d)] with [d > 0] returns
    no error, and a [GetJSON(key, dest)] gives [value'] and true as long as
    the entry is not expired, and false with [dest] untouched after that.
    The entry expires at the int64 value of [t + d] when that is positive.
    With the store time [t] not before 1970 and [t + d] within int64 that
    is: [value'] is read back until [d] has passed.  When [t + d] goes
    beyond int64 and wraps to a value that is not positive, it is read back
    at every time. *)
Theorem GetJSON_after_SetJSON {A B : Type}
  (marshal : A -> result gostring)
  (unmarshal : gostring -> B -> B * option error)
  (m : cache.Manager) (t now d : Z) (key jsonData : gostring)
  (value : A) (dest value' : B) :
  marshal value = Ok jsonData ->
  unmarshal jsonData dest = (value', None) ->
  0 < d ->
  let m' := (cache.SetJSON marshal m t key value d).1 in
  (cache.SetJSON marshal m t key value d).2 = None /\
  cache.GetJSON unmarshal m' now key dest
  = (if (0 <? wrap64 (t + d)) && (wrap64 (t + d) <? now)
     then (dest, false) else (value', true)) /\
  (0 <= t -> t + d < 2 ^ 63 ->
   cache.GetJSON unmarshal m' now key dest
   = if now <=? t + d then (value', true) else (dest, false)) /\
  (wrap64 (t + d) <= 0 ->
   cache.GetJSON unmarshal m' now key dest = (value', true)).
Proof.
  intros Hm Hu Hd m'. unfold m', cache.SetJSON. rewrite Hm. cbn [fst snd].
  split; [done|].
  assert (Hgen : cache.GetJSON unmarshal
                   {| cache.cache :=
                        gocache.Set_ (cache.cache m) t key (AnyString jsonData) d |}
                   now key dest
                 = (if (0 <? wrap64 (t + d)) && (wrap64 (t + d) <? now)
                    then (dest, false) else (value', true))).
  { unfold cache.GetJSON. cbn [cache.cache].
    rewrite cache_facts.Get_Set_eq. cbn zeta.
    assert ((d =? 0) = false) as -> by lia.
    assert ((0 <? d) = true) as -> by lia.
    destruct ((0 <? wrap64 (t + d)) && (wrap64 (t + d) <? now)); [done|].
    by rewrite Hu. }
  split; [done|]. split.
  - intros Ht Hmax. rewrite Hgen.
    rewrite cache_facts.wrap64_small by lia.
    assert ((0 <? t + d) = true) as -> by lia. cbn [andb].
    destruct (Z.leb_spec now (t + d)), (Z.ltb_spec (t + d) now); done || lia.
  - intros Hwrap. rewrite Hgen.
    assert ((0 <? wrap64 (t + d)) = false) as -> by lia. done.
Qed.

Lemma GetJSON_after_SetJSON_witness :
  let marshal := marshalSearchResponse mockEnv in
  let unmarshal := unmarshalSearchResponse mockEnv in
  let t := 1688212800000000000 in
  let d := cache.Minute in
  let now := t + 1 in
  (marshal mockResponse = Ok (str "R:test query") /\
   unmarshal (str "R:test query") zeroSearchResponse = (mockResponse, None) /\
   0 < d) /\
  let m' := (cache.SetJSON marshal cache.NewManager t (str "k") mockResponse
               d).1 in
  (cache.SetJSON marshal cache.NewManager t (str "k") mockResponse d).2
  = None /\
  cache.GetJSON unmarshal m' now (str "k") zeroSearchResponse
  = (if (0 <? wrap64 (t + d)) && (wrap64 (t + d) <? now)
     then (zeroSearchResponse, false) else (mockResponse, true)) /\
  (0 <= t -> t + d < 2 ^ 63 ->
   cache.GetJSON unmarshal m' now (str "k") zeroSearchResponse
   = if now <=? t + d then (mockResponse, true)
     else (zeroSearchResponse, false)) /\
  (wrap64 (t + d) <= 0 ->
   cache.GetJSON unmarshal m' now (str "k") zeroSearchResponse
   = (mockResponse, true)).
Proof.
  intros marshal unmarshal t d now. split; [done|].
  exact (GetJSON_after_SetJSON marshal unmarshal cache.NewManager t now
           d (str "k") (str "R:test query") mockResponse
           zeroSearchResponse mockResponse eq_refl eq_refl eq_refl).
Defined.

(** X4: after [Delete(key)] a [Get(key)] finds nothing, at any time; every
    other key is found or not as before; and deleting a key that has no
    entry changes nothing. *)
Theorem Get_after_Delete (m : cache.Manager) (now : Z) (key : gostring) :
  cache.Get (cache.Delete m key) now key = (AnyNil, false) /\
  (forall key', key' <> key ->
     cache.Get (cache.Delete m key) now key' = cache.Get m now key') /\
  (gocache.items (cache.cache m) !! key = None -> cache.Delete m key = m).
Proof.
  unfold cache.Get, cache.Delete, gocache.Get, gocache.Delete.
  cbn [cache.cache gocache.items]. repeat split.
  - by rewrite lookup_delete_eq.
  - intros key' Hne. by rewrite lookup_delete_ne.
  - intros Hk. destruct m as [[de its]]. cbn in *. by rewrite delete_id.
Qed.

(** X5: after [Flush] the manager holds no item: [ItemCount] is 0 and no
    key is found, whatever its expiration was. *)
Theorem Flush_empties (m : cache.Manager) :
  cache.ItemCount (cache.Flush m) = 0 /\
  forall now key, cache.Get (cache.Flush m) now key = (AnyNil, false).
Proof.
  split; [done|]. intros now key.
  unfold cache.Get, cache.Flush, gocache.Get, gocache.Flush.
  cbn [cache.cache gocache.items]. by rewrite lookup_empty.
Qed.

(** X6: [Set] touches one key.  A [Get] of another key gives what it gave
    before, and a second [Set] of the same key replaces the first entry
    whole: value and expiration are those of the second store. *)
Theorem Set_one_key (m : cache.Manager) (t1 t2 now d1 d2 : Z)
  (key : gostring) (v1 v2 : any) :
  (forall key', key' <> key ->
     cache.Get (cache.Set_ m t1 key v1 d1) now key' = cache.Get m now key') /\
  cache.Set_ (cache.Set_ m t1 key v1 d1) t2 key v2 d2
  = cache.Set_ m t2 key v2 d2.
Proof.
  split.
  - intros key' Hne. unfold cache.Get, cache.Set_, gocache.Get, gocache.Set_.
    cbn [cache.cache gocache.items]. by rewrite lookup_insert_ne.
  - unfold cache.Set_, gocache.Set_.
    cbn [cache.cache gocache.items gocache.defaultExpiration].
    by rewrite insert_insert_eq.
Qed.



(** X8: the key builders keep identities apart.  Each builder gives equal
    keys only for equal arguments (two currency ids, two queries, two
    titles, two hashes), and keys of two different categories are never
    equal, whatever the arguments. *)
Theorem cache_keys_distinct :
  (forall a b, cache.GetCurrencyDetailKey a = cache.GetCurrencyDetailKey b ->
               a = b) /\
  (forall a b, cache.GetWikiSearchKey a = cache.GetWikiSearchKey b -> a = b) /\
  (forall a b, cache.GetWikiPageKey a = cache.GetWikiPageKey b -> a = b) /\
  (forall a b, cache.GetWalletKey a = cache.GetWalletKey b -> a = b) /\
  (forall (id : Z) (query title hash : gostring),
     cache.GetCurrencyListKey <> cache.GetCurrencyDetailKey id /\
     cache.GetCurrencyListKey <> cache.GetWikiSearchKey query /\
     cache.GetCurrencyListKey <> cache.GetWikiPageKey title /\
     cache.GetCurrencyListKey <> cache.GetWalletKey hash /\
     cache.GetCurrencyDetailKey id <> cache.GetWikiSearchKey query /\
     cache.GetCurrencyDetailKey id <> cache.GetWikiPageKey title /\
     cache.GetCurrencyDetailKey id <> cache.GetWalletKey hash /\
     cache.GetWikiSearchKey query <> cache.GetWikiPageKey title /\
     cache.GetWikiSearchKey query <> cache.GetWalletKey hash /\
     cache.GetWikiPageKey title <> cache.GetWalletKey hash).
Proof.
  unfold cache.GetCurrencyListKey, cache.GetCurrencyDetailKey,
    cache.GetWikiSearchKey, cache.GetWikiPageKey, cache.GetWalletKey.
  split; [|split; [|split; [|split]]].
  - intros a b H%app_inv_head. by apply manager_facts.Sprintd_inj.
  - by intros a b H%app_inv_head.
  - by intros a b H%app_inv_head.
  - by intros a b H%app_inv_head.
  - intros id query title hash.
    unfold cache.CurrencyListKey, cache.CurrencyDetailKey, cache.WikiSearchKey,
      cache.WikiPageKey, cache.WalletKey.
    repeat split; intros H; simpl in H; discriminate H.
Qed.

(** X9: the durations [Set] does not take at face value.  On a manager
    whose default expiration is [StaticDataTTL], as [NewManager] makes it,
    a value stored with duration 0 lives one year ([StaticDataTTL]), and a
    value stored with a negative duration is found at every time. *)
Theorem Set_default_and_no_expiration (m : cache.Manager) (t now d : Z)
  (key : gostring) (value : any) :
  gocache.defaultExpiration (cache.cache m) = cache.StaticDataTTL ->
  0 <= t -> t + cache.StaticDataTTL < 2 ^ 63 -> d < 0 ->
  cache.Get (cache.Set_ m t key value 0) now key
  = (if now <=? t + cache.StaticDataTTL then (value, true)
     else (AnyNil, false)) /\
  cache.Get (cache.Set_ m t key value d) now key = (value, true).
Proof.
  intros Hde Ht Hmax Hd. unfold cache.Get, cache.Set_. cbn [cache.cache].
  rewrite !cache_facts.Get_Set_eq. cbn zeta. rewrite Hde.
  assert (0 < cache.StaticDataTTL) by done.
  split.
  - change (0 =? 0) with true. cbn match.
    assert ((0 <? cache.StaticDataTTL) = true) as -> by done.
    rewrite cache_facts.wrap64_small by lia.
    assert ((0 <? t + cache.StaticDataTTL) = true) as -> by lia.
    cbn [andb].
    destruct (Z.leb_spec now (t + cache.StaticDataTTL)),
      (Z.ltb_spec (t + cache.StaticDataTTL) now); done || lia.
  - assert ((d =? 0) = false) as -> by lia.
    assert ((0 <? d) = false) as -> by lia. done.
Qed.

Lemma Set_default_and_no_expiration_witness :
  let t := 1688212800000000000 in
  let now := t + 2 * cache.StaticDataTTL in
  (gocache.defaultExpiration (cache.cache cache.NewManager)
   = cache.StaticDataTTL /\
   0 <= t /\ t + cache.StaticDataTTL < 2 ^ 63 /\ -1 < 0) /\
  cache.Get (cache.Set_ cache.NewManager t (str "k") (AnyInt 1) 0) now (str "k")
  = (if now <=? t + cache.StaticDataTTL then (AnyInt 1, true)
     else (AnyNil, false)) /\
  cache.Get (cache.Set_ cache.NewManager t (str "k") (AnyInt 1) (-1)) now
    (str "k")
  = (AnyInt 1, true).
Proof.
  intros t now. split; [done|].
  exact (Set_default_and_no_expiration cache.NewManager t now (-1) (str "k")
           (AnyInt 1) eq_refl ltac:(done) eq_refl eq_refl).
Defined.

(** ** The wiki client, request by request *)

Module client_facts.

Section Facts.

Variable E : Env.

Lemma afterMissLine_world (query : gostring) (w : World) :
  manager (afterMissLine query w) = manager w /\
  clock (afterMissLine query w) = clock w /\
  sent (afterMissLine query w) = sent w.
Proof. done. Qed.

(** [performSearch] sends its one request and leaves the cache alone. *)
Lemma performSearch_world (query : gostring) (limit : Z) (w : World) :
  manager (performSearch E query limit w).2 = manager w /\
  sent (performSearch E query limit w).2 = sent w ++ [SearchRequest query limit].
Proof.
  unfold performSearch, bind, httpDo, ret.
  destruct (roundTrip E _ _ _) as [[msg|code body] arrival]; [done|].
  destruct (negb (code =? 200)); [done|].
  by destruct (decodeWikiAPIResponse E body).
Qed.

Lemma performSearch_ok (query : gostring) (limit : Z) (w : World)
  (body : gostring) (arrival : Z) (apiResponse : WikiAPIResponse.t) :
  roundTrip E (sent w) (clock w) (SearchRequest query limit)
  = (ReplyResponse 200 body, arrival) ->
  decodeWikiAPIResponse E body = Ok apiResponse ->
  (performSearch E query limit w).1 = Ok (convertResults apiResponse).
Proof.
  intros Hr Hd. unfold performSearch, bind, httpDo, ret.
  rewrite Hr. cbn. by rewrite Hd.
Qed.

Lemma getPageExtract_unfold (title : gostring) (w : World) :
  getPageExtract E title w
  = let key := cache.GetWikiPageKey title in
    match cache.GetString (manager w) (clock w) key with
    | (extract, true) =>
        (Ok extract,
         {| manager := manager w; clock := clock w; sent := sent w;
            logged := logged w |})
    | (_, false) =>
        let (reply, arrival) :=
          roundTrip E (sent w) (clock w) (ExtractRequest title) in
        let w' := {| manager := manager w; clock := arrival;
                     sent := sent w ++ [ExtractRequest title];
                     logged := logged w |} in
        match reply with
        | ReplyError msg => (Err (ErrTransport msg), w')
        | ReplyResponse code body =>
            if negb (code =? 200) then (Err (ErrExtractStatus code), w')
            else
              match decodePageContentResponse E body with
              | Err err =>
                  (Err (ErrWrap (str "failed to decode extract response") err),
                   w')
              | Ok content =>
                  (Ok (firstExtract content),
                   {| manager := cache.Set_ (manager w) arrival key
                                   (AnyString (firstExtract content))
                                   cache.WikiDataTTL;
                      clock := arrival;
                      sent := sent w ++ [ExtractRequest title];
                      logged := logged w |})
              end
        end
    end.
Proof.
  unfold getPageExtract, bind at 1, withManager. cbn zeta.
  destruct (cache.GetString _ _ _) as [cached [|]]; [done|].
  unfold bind at 1, httpDo. cbn [manager clock sent logged].
  destruct (roundTrip E _ _ _) as [[msg|code body] arrival]; [done|].
  destruct (negb (code =? 200)); [done|].
  by destruct (decodePageContentResponse E body).
Qed.

(** The three ways [getPageExtract] ends: served from the cache; fetched
    and stored; failed, with nothing stored. *)
Lemma getPageExtract_cases (title : gostring) (w : World) :
  let key := cache.GetWikiPageKey title in
  let out := getPageExtract E title w in
  (exists extract,
     cache.GetString (manager w) (clock w) key = (extract, true) /\
     out.1 = Ok extract /\ manager out.2 = manager w /\
     clock out.2 = clock w /\ sent out.2 = sent w) \/
  ((cache.GetString (manager w) (clock w) key).2 = false /\
   sent out.2 = sent w ++ [ExtractRequest title] /\
   ((exists extract,
       out.1 = Ok extract /\
       manager out.2
       = cache.Set_ (manager w) (clock out.2) key (AnyString extract)
           cache.WikiDataTTL) \/
    (exists err, out.1 = Err err /\ manager out.2 = manager w))).
Proof.
  intros key out. unfold out. rewrite getPageExtract_unfold. cbn zeta.
  fold key.
  destruct (cache.GetString (manager w) (clock w) key) as [cached [|]] eqn:Hg.
  - left. by exists cached.
  - right. split; [done|].
    destruct (roundTrip E _ _ _) as [[msg|code body] arrival].
    + split; [done|]. right. by exists (ErrTransport msg).
    + destruct (negb (code =? 200)).
      * split; [done|]. right. by exists (ErrExtractStatus code).
      * destruct (decodePageContentResponse E body) as [content|err].
        -- split; [done|]. left. by exists (firstExtract content).
        -- split; [done|]. right. by eexists.
Qed.

Lemma afterRound_sent (r : SearchResult) (w : World) :
  sent (afterRound E r w) = sent (getPageExtract E (Title r) w).2.
Proof.
  unfold afterRound. by destruct (getPageExtract E (Title r) w) as [[?|?] ?].
Qed.

(** The loop of [Search] sends extract requests only, for titles of the
    results, in their order, at most one for each. *)
Lemma enhance_sent (rs : list SearchResult) (w : World) :
  exists titles,
    sublist titles (Title <$> rs) /\
    sent (enhance E rs w).2 = sent w ++ (ExtractRequest <$> titles).
Proof.
  revert w. induction rs as [|r rest IH]; intros w.
  - exists []. split; [constructor|]. simpl. by rewrite app_nil_r.
  - rewrite search_facts.enhance_cons. cbn [snd].
    destruct (IH (afterRound E r w)) as (titles & Hsub & ->).
    rewrite afterRound_sent.
    destruct (getPageExtract_cases (Title r) w)
      as [(extract & _ & _ & _ & _ & ->)|(_ & -> & _)].
    + exists titles. split; [|done]. by apply sublist_cons.
    + exists (Title r :: titles). split; [by apply sublist_skip|].
      by rewrite <- app_assoc.
Qed.

Lemma enhance_keeps (rs : list SearchResult) (w : World) :
  Title <$> (enhance E rs w).1 = Title <$> rs /\
  Snippet <$> (enhance E rs w).1 = Snippet <$> rs.
Proof.
  revert w. induction rs as [|r rest IH]; intros w; [done|].
  rewrite search_facts.enhance_cons. cbn [fst fmap list_fmap].
  destruct (IH (afterRound E r w)) as [-> ->]. done.
Qed.

End Facts.

End client_facts.

(** X10: what [cleanSnippet] returns has no white space at either end, no
    newline and no tab, no two blanks in a row, and is never longer than
    the snippet it was given. *)
Theorem cleanSnippet_shape (s : gostring) :
  strings.TrimSpace (cleanSnippet s) = cleanSnippet s /\
  (10 ∉ cleanSnippet s) /\ (9 ∉ cleanSnippet s) /\
  strings.Contains (cleanSnippet s) [32; 32] = false /\
  (length (cleanSnippet s) <= length s)%nat.
Proof.
  rewrite snippet_facts.cleanSnippet_tidy.
  destruct (snippet_facts.tidy_tidied (stripMarkup s)) as [H1 H2 H3 H4 H5].
  split; [by apply snippet_facts.TrimSpace_id|]. do 3 (split; [done|]).
  etrans; [apply snippet_facts.tidy_length|].
  unfold stripMarkup.
  repeat (etrans; [apply strings_facts.ReplaceAll_length; [done|simpl; lia]|]).
  done.
Qed.

(** X11: when the search request fails (no reply, a status other than 200,
    a body that does not decode), [Search] fails with that error wrapped
    as [search failed]; it has sent that one request and no extract
    request, and the cache is as it was: the failure is not cached. *)
Theorem Search_search_failure (E : Env) (query : gostring) (limit : Z)
  (w : World) (err : error) :
  cacheMiss E query w ->
  (performSearch E query limit (afterMissLine query w)).1 = Err err ->
  (Search E query limit w).1 = Err (ErrWrap (str "search failed") err) /\
  sent (Search E query limit w).2 = sent w ++ [SearchRequest query limit] /\
  manager (Search E query limit w).2 = manager w.
Proof.
  intros Hmiss Hp.
  rewrite (search_facts.Search_miss_err E query limit w err Hmiss Hp).
  cbn [fst snd].
  destruct (client_facts.performSearch_world E query limit
              (afterMissLine query w)) as [Hm Hs].
  by rewrite Hm, Hs.
Qed.

Lemma Search_search_failure_witness :
  let E := demoEnv [] siteUp [] in
  let E' :=
    {| caseTo := caseTo E;
       roundTrip := fun _ now _ => (ReplyResponse 503 (str "busy"), now + 1);
       decodeWikiAPIResponse := decodeWikiAPIResponse E;
       decodePageContentResponse := decodePageContentResponse E;
       marshalSearchResponse := marshalSearchResponse E;
       unmarshalSearchResponse := unmarshalSearchResponse E |} in
  let query := str "Dragon Bash" in
  (cacheMiss E' query freshWorld /\
   (performSearch E' query 5 (afterMissLine query freshWorld)).1
   = Err (ErrSearchStatus 503 (str "busy"))) /\
  (Search E' query 5 freshWorld).1
  = Err (ErrWrap (str "search failed") (ErrSearchStatus 503 (str "busy"))) /\
  sent (Search E' query 5 freshWorld).2
  = sent freshWorld ++ [SearchRequest query 5] /\
  manager (Search E' query 5 freshWorld).2 = manager freshWorld.
Proof.
  intros E E' query. split; [done|].
  exact (Search_search_failure E' query 5 freshWorld
           (ErrSearchStatus 503 (str "busy")) eq_refl eq_refl).
Defined.

(** X12: the requests of a search that misses the cache.  [Search] sends
    the search request first, with the query as it was given (not
    normalized) and the limit as it was given, and after it extract
    requests only: for titles of the results, in the order of the results,
    at most one for each result.  Nothing is sent twice for a retry. *)
Theorem Search_requests (E : Env) (query : gostring) (limit : Z) (w : World)
  (rs : list SearchResult) :
  cacheMiss E query w ->
  (performSearch E query limit (afterMissLine query w)).1 = Ok rs ->
  exists titles,
    sublist titles (Title <$> rs) /\
    sent (Search E query limit w).2
    = sent w ++ SearchRequest query limit :: (ExtractRequest <$> titles).
Proof.
  intros Hmiss Hp.
  rewrite (search_facts.Search_miss_ok E query limit w rs Hmiss Hp).
  unfold missOutcome.
  destruct (client_facts.enhance_sent E rs
              (performSearch E query limit (afterMissLine query w)).2)
    as (titles & Hsub & Hsent).
  destruct (client_facts.performSearch_world E query limit
              (afterMissLine query w)) as [_ Hs].
  rewrite Hs in Hsent. cbn [afterMissLine logWrite snd sent] in Hsent.
  destruct (enhance E rs _) as [rs' w2]. cbn [snd] in Hsent.
  exists titles. split; [done|].
  destruct (marshalSearchResponse E _); cbn [snd sent];
    by rewrite Hsent, <- app_assoc.
Qed.

Lemma Search_requests_witness :
  let query := str "festival" in
  let rs := convertResults
              {| WikiAPIResponse.BatchComplete := [];
                 WikiAPIResponse.Search :=
                   [hitTitled (str "Dragon Bash"); hitTitled (str "Zephyrite");
                    hitTitled (str "Festival")];
                 WikiAPIResponse.TotalHits := 3 |} in
  (cacheMiss flakyEnv query freshWorld /\
   (performSearch flakyEnv query 5 (afterMissLine query freshWorld)).1 = Ok rs) /\
  exists titles,
    sublist titles (Title <$> rs) /\
    sent (Search flakyEnv query 5 freshWorld).2
    = sent freshWorld ++ SearchRequest query 5 :: (ExtractRequest <$> titles).
Proof.
  intros query rs. split; [done|].
  exact (Search_requests flakyEnv query 5 freshWorld rs eq_refl eq_refl).
Defined.

(** X13: an extract that is in the cache is served from it.  When the
    cache holds an unexpired string under the key of the title,
    [getPageExtract] returns that string as it is, sends no request and
    leaves the cache as it was. *)
Theorem getPageExtract_cache_hit (E : Env) (title extract : gostring)
  (w : World) :
  cache.GetString (manager w) (clock w) (cache.GetWikiPageKey title)
  = (extract, true) ->
  (getPageExtract E title w).1 = Ok extract /\
  sent (getPageExtract E title w).2 = sent w /\
  manager (getPageExtract E title w).2 = manager w.
Proof.
  intros Hg.
  destruct (client_facts.getPageExtract_cases E title w)
    as [(x & Hx & H1 & H2 & _ & H3)|(Hmiss & _)].
  - rewrite Hg in Hx. injection Hx as <-. done.
  - by rewrite Hg in Hmiss.
Qed.

Lemma getPageExtract_cache_hit_witness :
  let w := {| manager :=
                cache.Set_ cache.NewManager 1688212800000000000
                  (cache.GetWikiPageKey (str "Dragon Bash"))
                  (AnyString (str "A festival.")) cache.WikiDataTTL;
              clock := 1688212800000000000 + cache.Hour;
              sent := []; logged := [] |} in
  cache.GetString (manager w) (clock w)
    (cache.GetWikiPageKey (str "Dragon Bash")) = (str "A festival.", true) /\
  (getPageExtract dragonEnv (str "Dragon Bash") w).1 = Ok (str "A festival.") /\
  sent (getPageExtract dragonEnv (str "Dragon Bash") w).2 = sent w /\
  manager (getPageExtract dragonEnv (str "Dragon Bash") w).2 = manager w.
Proof.
  intros w.
  assert (H : cache.GetString (manager w) (clock w)
                (cache.GetWikiPageKey (str "Dragon Bash"))
              = (str "A festival.", true)) by (vm_compute; reflexivity).
  split; [done|].
  exact (getPageExtract_cache_hit dragonEnv (str "Dragon Bash")
           (str "A festival.") w H).
Defined.

(** X14: an extract is fetched once a day.  When [getPageExtract] had to
    ask the wiki and got an extract, a second call for the same title, in
    any world that has the cache the first call left and a clock within
    [WikiDataTTL] of the reply, returns the same extract and sends
    nothing. *)
Theorem getPageExtract_again (E : Env) (title extract : gostring)
  (w w' : World) :
  (cache.GetString (manager w) (clock w) (cache.GetWikiPageKey title)).2
  = false ->
  (getPageExtract E title w).1 = Ok extract ->
  manager w' = manager (getPageExtract E title w).2 ->
  0 <= clock (getPageExtract E title w).2 ->
  clock (getPageExtract E title w).2 + cache.WikiDataTTL < 2 ^ 63 ->
  clock w' <= clock (getPageExtract E title w).2 + cache.WikiDataTTL ->
  (getPageExtract E title w').1 = Ok extract /\
  sent (getPageExtract E title w').2 = sent w'.
Proof.
  intros Hmiss Hok Hm H0 Hmax Hnow.
  destruct (client_facts.getPageExtract_cases E title w)
    as [(x & Hx & _)|(_ & _ & [(x & Hx & Hset)|(err & Herr & _)])].
  - by rewrite Hx in Hmiss.
  - rewrite Hok in Hx. injection Hx as <-.
    destruct (getPageExtract_cache_hit E title extract w') as (H1 & H2 & _);
      [|done].
    rewrite Hm, Hset.
    assert (0 < cache.WikiDataTTL) by done.
    rewrite manager_facts.GetString_Set_fresh by done.
    by destruct (Z.leb_spec (clock w')
                   (clock (getPageExtract E title w).2 + cache.WikiDataTTL));
      [|lia].
  - by rewrite Hok in Herr.
Qed.

Lemma getPageExtract_again_witness :
  let title := str "Dragon Bash" in
  let extract := str "Dragon Bash is an annual festival." in
  let w' := (getPageExtract dragonEnv title freshWorld).2 in
  ((cache.GetString (manager freshWorld) (clock freshWorld)
      (cache.GetWikiPageKey title)).2 = false /\
   (getPageExtract dragonEnv title freshWorld).1 = Ok extract /\
   manager w' = manager (getPageExtract dragonEnv title freshWorld).2 /\
   0 <= clock (getPageExtract dragonEnv title freshWorld).2 /\
   clock (getPageExtract dragonEnv title freshWorld).2 + cache.WikiDataTTL
   < 2 ^ 63 /\
   clock w'
   <= clock (getPageExtract dragonEnv title freshWorld).2 + cache.WikiDataTTL) /\
  (getPageExtract dragonEnv title w').1 = Ok extract /\
  sent (getPageExtract dragonEnv title w').2 = sent w'.
Proof.
  intros title extract w'.
  assert (H1 : (cache.GetString (manager freshWorld) (clock freshWorld)
                  (cache.GetWikiPageKey title)).2 = false) by reflexivity.
  assert (H2 : (getPageExtract dragonEnv title freshWorld).1 = Ok extract)
    by reflexivity.
  assert (H3 : 0 <= clock (getPageExtract dragonEnv title freshWorld).2)
    by (vm_compute; discriminate).
  assert (H4 : clock (getPageExtract dragonEnv title freshWorld).2
               + cache.WikiDataTTL < 2 ^ 63) by reflexivity.
  assert (H5 : clock w' <= clock (getPageExtract dragonEnv title freshWorld).2
                           + cache.WikiDataTTL)
    by (vm_compute; discriminate).
  split; [done|].
  exact (getPageExtract_again dragonEnv title extract freshWorld w'
           H1 H2 eq_refl H3 H4 H5).
Defined.

(** X15: a failed extract fetch is not cached.  When [getPageExtract]
    returns an error it has sent exactly one request, the extract request
    for the title, and the cache is as it was, so the next call asks the
    wiki again. *)
Theorem getPageExtract_failure (E : Env) (title : gostring) (w : World)
  (err : error) :
  (getPageExtract E title w).1 = Err err ->
  sent (getPageExtract E title w).2 = sent w ++ [ExtractRequest title] /\
  manager (getPageExtract E title w).2 = manager w /\
  (cache.GetString (manager (getPageExtract E title w).2) (clock w)
     (cache.GetWikiPageKey title)).2 = false.
Proof.
  intros Herr.
  destruct (client_facts.getPageExtract_cases E title w)
    as [(x & _ & Hx & _)|(Hmiss & Hs & [(x & Hx & _)|(e & _ & Hm)])].
  - by rewrite Herr in Hx.
  - by rewrite Herr in Hx.
  - by rewrite Hm.
Qed.

Lemma getPageExtract_failure_witness :
  (getPageExtract flakyEnv (str "Zephyrite") freshWorld).1
  = Err (ErrExtractStatus 500) /\
  sent (getPageExtract flakyEnv (str "Zephyrite") freshWorld).2
  = sent freshWorld ++ [ExtractRequest (str "Zephyrite")] /\
  manager (getPageExtract flakyEnv (str "Zephyrite") freshWorld).2
  = manager freshWorld /\
  (cache.GetString
     (manager (getPageExtract flakyEnv (str "Zephyrite") freshWorld).2)
     (clock freshWorld) (cache.GetWikiPageKey (str "Zephyrite"))).2 = false.
Proof.
  split; [reflexivity|].
  exact (getPageExtract_failure flakyEnv (str "Zephyrite") freshWorld
           (ErrExtractStatus 500) eq_refl).
Defined.

(** X16: [Search] returns every hit the wiki sent.  After a cache miss,
    when the search request is answered with status 200 and a body that
    decodes, [Search] succeeds with one result for each decoded hit, in
    order, whatever the limit was (the limit goes to the wiki and the
    reply is not cut to it); each result has the title of its hit and the
    snippet of its hit cleaned by [cleanSnippet], and the response carries
    the query as given and the number of hits as [Total]. *)
Theorem Search_returns_every_hit (E : Env) (query : gostring) (limit : Z)
  (w : World) (body : gostring) (arrival : Z)
  (apiResponse : WikiAPIResponse.t) :
  cacheMiss E query w ->
  roundTrip E (sent w) (clock w) (SearchRequest query limit)
  = (ReplyResponse 200 body, arrival) ->
  decodeWikiAPIResponse E body = Ok apiResponse ->
  exists resp,
    (Search E query limit w).1 = Ok resp /\
    Query resp = query /\
    Total resp = Z.of_nat (length (WikiAPIResponse.Search apiResponse)) /\
    Title <$> Results resp
    = WikiAPIResponse.Title <$> WikiAPIResponse.Search apiResponse /\
    Snippet <$> Results resp
    = (fun item => cleanSnippet (WikiAPIResponse.Snippet item))
        <$> WikiAPIResponse.Search apiResponse.
Proof.
  intros Hmiss Hr Hd.
  assert (Hp : (performSearch E query limit (afterMissLine query w)).1
               = Ok (convertResults apiResponse))
    by by apply client_facts.performSearch_ok with body arrival.
  rewrite (search_facts.Search_miss_ok E query limit w _ Hmiss Hp).
  unfold missOutcome.
  pose proof (client_facts.enhance_keeps E (convertResults apiResponse)
                (performSearch E query limit (afterMissLine query w)).2)
    as [Ht Hs].
  pose proof (search_facts.enhance_length E (convertResults apiResponse)
                (performSearch E query limit (afterMissLine query w)).2)
    as Hlen.
  destruct (enhance E _ _) as [rs' w2]. cbn [fst] in Ht, Hs, Hlen.
  eexists. split; [destruct (marshalSearchResponse E _); reflexivity|].
  cbn [Query Total Results]. split; [done|].
  unfold convertResults in *. rewrite length_map in Hlen.
  rewrite Hlen, Ht, Hs. rewrite <- !list_fmap_compose. done.
Qed.

Lemma Search_returns_every_hit_witness :
  let query := str "festival" in
  let api := {| WikiAPIResponse.BatchComplete := [];
                WikiAPIResponse.Search :=
                  [hitTitled (str "Dragon Bash"); hitTitled (str "Zephyrite");
                   hitTitled (str "Festival")];
                WikiAPIResponse.TotalHits := 3 |} in
  (cacheMiss flakyEnv query freshWorld /\
   roundTrip flakyEnv (sent freshWorld) (clock freshWorld)
     (SearchRequest query 2)
   = (ReplyResponse 200 (str "S"), clock freshWorld + 1000000) /\
   decodeWikiAPIResponse flakyEnv (str "S") = Ok api) /\
  exists resp,
    (Search flakyEnv query 2 freshWorld).1 = Ok resp /\
    Query resp = query /\
    Total resp = Z.of_nat (length (WikiAPIResponse.Search api)) /\
    Title <$> Results resp
    = WikiAPIResponse.Title <$> WikiAPIResponse.Search api /\
    Snippet <$> Results resp
    = (fun item => cleanSnippet (WikiAPIResponse.Snippet item))
        <$> WikiAPIResponse.Search api.
Proof.
  intros query api. split; [done|].
  exact (Search_returns_every_hit flakyEnv query 2 freshWorld (str "S")
           (clock freshWorld + 1000000) api eq_refl eq_refl eq_refl).
Defined.

(** ** The URL of a result *)

Module url_facts.
Import url.

Lemma upperhex_alnum (n : Z) : isAlnum (upperhex n) = true.
Proof.
  unfold upperhex. generalize (Z.to_nat n). intros k.
  do 16 (destruct k as [|k]; [reflexivity|]). cbn. by destruct k.
Qed.

Lemma memZ_true (c : Z) (l : list Z) : memZ c l = true <-> c ∈ l.
Proof.
  unfold memZ. rewrite existsb_exists. split.
  - intros (x & Hx & ->%Z.eqb_eq). by apply list_elem_of_In.
  - intros Hc. exists c. split; [by apply list_elem_of_In|apply Z.eqb_refl].
Qed.

Lemma shouldEscape_query_false (c : Z) :
  shouldEscape c encodeQueryComponent = false ->
  isAlnum c = true \/ c ∈ str "-_.~".
Proof.
  unfold shouldEscape. destruct (isAlnum c); [by left|].
  destruct (memZ c (str "-_.~")) eqn:Hm; [right; by apply memZ_true|].
  by destruct (memZ c (str "$&+,/:;=?@")).
Qed.

Lemma escapeByte_query_alphabet (c : Z) :
  Forall (fun x => isAlnum x = true \/ x ∈ str "-_.~%+")
    (escapeByte encodeQueryComponent c).
Proof.
  unfold escapeByte.
  destruct (shouldEscape c encodeQueryComponent) eqn:Hs.
  - destruct (c =? 32).
    + apply Forall_cons_2; [|apply Forall_nil_2].
      right. apply memZ_true. reflexivity.
    + apply Forall_cons_2; [right; apply memZ_true; reflexivity|].
      apply Forall_cons_2; [left; apply upperhex_alnum|].
      apply Forall_cons_2; [left; apply upperhex_alnum|apply Forall_nil_2].
  - apply Forall_cons_2; [|apply Forall_nil_2].
    destruct (shouldEscape_query_false c Hs) as [H|H]; [by left|right].
    apply list_elem_of_In in H. apply list_elem_of_In.
    simpl in *. tauto.
Qed.

(** The bytes of a rune: the rune itself when it is ASCII, bytes from 128
    on otherwise. *)
Lemma lor_high (a x k : Z) :
  Z.testbit a 7 = true -> 0 <= k < 128 -> Z.lor a x <> k.
Proof.
  intros Ha Hk Heq.
  assert (Z.testbit (Z.lor a x) 7 = true) as Ht
    by (rewrite Z.lor_spec, Ha; done).
  rewrite Heq in Ht.
  rewrite (Z.bits_above_log2 k 7) in Ht; [done|lia|].
  destruct (Z.eq_dec k 0) as [->|Hk0]; [done|].
  apply Z.log2_lt_pow2; lia.
Qed.

Lemma encodeRune_ascii (r c : Z) :
  0 <= c < 128 -> c ∈ encodeRune r -> r = c /\ encodeRune r = [c].
Proof.
  intros Hc. unfold encodeRune.
  destruct ((r <? 0) || (1114111 <? r) || ((55296 <=? r) && (r <=? 57343))).
  { intros Hin. apply list_elem_of_In in Hin. simpl in Hin. lia. }
  destruct (Z.leb_spec r 127) as [Hr|Hr].
  { intros ->%list_elem_of_singleton. done. }
  intros Hin. exfalso.
  destruct (r <=? 2047); [|destruct (r <=? 65535)];
    apply list_elem_of_In in Hin; simpl in Hin;
    repeat (destruct Hin as [Hin|Hin]; [by eapply lor_high in Hin|]); done.
Qed.

Lemma encodeRune_self (r : Z) : 0 <= r < 128 -> encodeRune r = [r].
Proof.
  intros Hr. unfold encodeRune.
  assert ((r <? 0) = false) as -> by lia.
  assert ((1114111 <? r) = false) as -> by lia.
  assert ((55296 <=? r) = false) as -> by lia.
  assert ((r <=? 127) = true) as -> by lia. done.
Qed.

(** Where the two escapings part: on the bytes of [ $&+:=@]. *)
Lemma escapeByte_agree (c : Z) :
  c ∉ str " $&+:=@" ->
  escapeByte encodeQueryComponent c = escapeByte encodePathSegment c.
Proof.
  intros Hc. unfold escapeByte, shouldEscape.
  destruct (isAlnum c); [done|].
  destruct (memZ c (str "-_.~")); [done|].
  assert (c <> 32) as H32 by (intros ->; apply Hc, memZ_true; reflexivity).
  assert ((c =? 32) = false) as -> by lia.
  destruct (memZ c (str "$&+,/:;=?@")) eqn:Hr; [|done].
  destruct (memZ c (str "/;,?")) eqn:Hp; [done|]. exfalso.
  apply Hc. apply memZ_true, list_elem_of_In in Hr. simpl in Hr.
  repeat (destruct Hr as [<-|Hr];
          [first [ by vm_compute in Hp | apply memZ_true; reflexivity ]|]).
  done.
Qed.

Lemma escapeByte_part (c : Z) :
  c ∈ str " $&+:=@" ->
  exists x y q p,
    escapeByte encodeQueryComponent c = x :: q /\
    escapeByte encodePathSegment c = y :: p /\ x <> y.
Proof.
  intros Hc. apply list_elem_of_In in Hc. simpl in Hc.
  repeat (destruct Hc as [<-|Hc];
          [by eexists _, _, _, _; repeat split|]).
  done.
Qed.

Lemma flat_map_heads {A B : Type} (f g : A -> list B) (l : list A) :
  (forall a, f a = g a \/
             exists x y q p, f a = x :: q /\ g a = y :: p /\ x <> y) ->
  flat_map f l = flat_map g l <-> Forall (fun a => f a = g a) l.
Proof.
  intros Hfg. induction l as [|a l IH]; simpl.
  - split; [constructor|done].
  - split.
    + intros Heq. destruct (Hfg a) as [Ha|(x & y & q & p & Hf & Hg & Hxy)].
      * constructor; [done|]. apply IH. rewrite Ha in Heq.
        by apply app_inv_head in Heq.
      * rewrite Hf, Hg in Heq. simpl in Heq. by injection Heq.
    + intros H. inversion H as [|? ? Ha Hl]; subst.
      rewrite Ha. f_equal. by apply IH.
Qed.

End url_facts.

(** X17: every URL [Search] assigns is plain ASCII: whatever the title, the
    escaped title is made of letters, digits and [-_.~%+], so the URL is
    made of letters, digits and [-_.~%+:/] and holds no blank and no byte
    of a non-ASCII rune. *)
Theorem resultURL_alphabet (title : gostring) :
  Forall (fun c => url.isAlnum c = true \/ c ∈ str "-_.~%+")
    (url.QueryEscape title) /\
  Forall (fun c => url.isAlnum c = true \/ c ∈ str "-_.~%+:/")
    (resultURL title).
Proof.
  assert (H : Forall (fun c => url.isAlnum c = true \/ c ∈ str "-_.~%+")
                (url.QueryEscape title)).
  { unfold url.QueryEscape, url.escape.
    generalize (flat_map url.encodeRune title). intros bytes.
    induction bytes as [|c bytes IH]; simpl; [constructor|].
    apply Forall_app. split; [apply url_facts.escapeByte_query_alphabet|done]. }
  split; [done|]. unfold resultURL. rewrite !Forall_app. repeat split.
  - apply Forall_forall. intros c Hc.
    apply list_elem_of_In in Hc. simpl in Hc.
    repeat (destruct Hc as [<-|Hc];
            [first [by left | right; apply url_facts.memZ_true; reflexivity]|]).
    done.
  - apply Forall_forall. intros c Hc.
    apply list_elem_of_In in Hc. simpl in Hc.
    repeat (destruct Hc as [<-|Hc];
            [first [by left | right; apply url_facts.memZ_true; reflexivity]|]).
    done.
  - eapply Forall_impl; [exact H|]. intros c [Hc|Hc]; [by left|right].
    apply list_elem_of_In in Hc. simpl in Hc. apply url_facts.memZ_true.
    repeat (destruct Hc as [<-|Hc]; [reflexivity|]). done.
Qed.

(** X18: when the URL [Search] assigns is the path-escaped one.
    [url.QueryEscape] and [url.PathEscape] give the same text for a title
    exactly when the title holds no blank and none of [$&+:=@]; for those
    titles, and for no others, the URL of a result is the wiki base,
    [/wiki/] and the path-escaped title. *)
Theorem resultURL_path_escaped (title : gostring) :
  resultURL title = wikiBaseURL ++ str "/wiki/" ++ url.PathEscape title <->
  Forall (fun r => r ∉ str " $&+:=@") title.
Proof.
  unfold resultURL.
  assert (url.QueryEscape title = url.PathEscape title <->
          Forall (fun r => r ∉ str " $&+:=@") title) as <-.
  { unfold url.QueryEscape, url.PathEscape, url.escape.
    rewrite url_facts.flat_map_heads.
    - rewrite Forall_flat_map. split; intros H.
      + rewrite Forall_forall in H. apply Forall_forall. intros r Hr Hin.
        assert (0 <= r < 128) as Hascii
          by (apply list_elem_of_In in Hin; simpl in Hin; lia).
        specialize (H r Hr).
        rewrite url_facts.encodeRune_self, Forall_singleton in H by done.
        destruct (url_facts.escapeByte_part r Hin)
          as (x & y & q & p & Hq & Hp & Hxy).
        rewrite Hq, Hp in H. by injection H.
      + eapply Forall_impl; [exact H|]. intros r Hr.
        apply Forall_forall. intros c Hc.
        apply url_facts.escapeByte_agree. intros Hin.
        assert (0 <= c < 128) as Hascii
          by (apply list_elem_of_In in Hin; simpl in Hin; lia).
        destruct (url_facts.encodeRune_ascii r c Hascii Hc) as [-> _]. done.
    - intros c. destruct (decide (c ∈ str " $&+:=@")) as [Hin|Hout].
      + right. by apply url_facts.escapeByte_part.
      + left. by apply url_facts.escapeByte_agree. }
  split; [|by intros ->].
  intros H. by do 2 apply app_inv_head in H.
Qed.

(** ** More on keys and on cached extracts *)

Module normal_facts.
Import strings snippet.

Lemma map_noLead (f : rune -> rune) (s : gostring) :
  (forall c, IsSpace (f c) = IsSpace c) -> noLead s -> noLead (map f s).
Proof.
  intros Hf H c r Hr. destruct s as [|b s]; [done|].
  injection Hr as <- <-. rewrite Hf. by eapply H.
Qed.

Lemma map_noTrail (f : rune -> rune) (s : gostring) :
  (forall c, IsSpace (f c) = IsSpace c) -> noTrail s -> noTrail (map f s).
Proof.
  intros Hf H r c Hr.
  apply fmap_app_inv in Hr as (r' & l & -> & Hl & ->).
  destruct l as [|b [|??]]; simpl in Hl; try done. injection Hl as ->.
  rewrite Hf. by eapply H.
Qed.

Section Cached.

Variable E : Env.

(** With every extract in the cache, the loop of [Search] sends nothing
    and changes neither cache nor clock. *)
Lemma enhance_all_cached (rs : list SearchResult) (w : World) :
  Forall (fun r =>
            (cache.GetString (manager w) (clock w)
               (cache.GetWikiPageKey (Title r))).2 = true) rs ->
  sent (enhance E rs w).2 = sent w /\
  manager (enhance E rs w).2 = manager w /\
  clock (enhance E rs w).2 = clock w /\
  Extract <$> (enhance E rs w).1
  = (fun r => (cache.GetString (manager w) (clock w)
                 (cache.GetWikiPageKey (Title r))).1) <$> rs.
Proof.
  revert w. induction rs as [|r rest IH]; intros w Hall; [done|].
  inversion Hall as [|? ? Hr Hrest]; subst.
  rewrite search_facts.enhance_cons. cbn [fst snd fmap list_fmap].
  destruct (cache.GetString (manager w) (clock w)
              (cache.GetWikiPageKey (Title r))) as [extract b] eqn:Hg.
  simpl in Hr. subst b.
  unfold afterRound.
  destruct (client_facts.getPageExtract_cases E (Title r) w)
    as [(x & Hx & Hok & Hm & Hc & Hs)|(Hmiss & _)];
    [|by rewrite Hg in Hmiss].
  rewrite Hg in Hx. injection Hx as <-.
  destruct (getPageExtract E (Title r) w) as [[e|err] w0]; [|done].
  cbn [fst snd] in *. injection Hok as ->.
  destruct (IH w0) as (H1 & H2 & H3 & H4).
  { rewrite Hm, Hc. done. }
  rewrite H1, H2, H3, H4, Hm, Hc, Hs. done.
Qed.

End Cached.

End normal_facts.

(** X19: normalizing is idempotent on keys.  The key [Search] derives from
    a query is also the key it derives from the normalized (trimmed,
    lower-cased) query, and it is the key [GetWikiSearchKey] gives for the
    normalized query: a caller that normalizes first reaches the same cache
    entry.  (The same two facts of the Unicode case table are used as for
    C4.) *)
Theorem searchCacheKey_of_normalized (E : Env) (query : gostring) :
  (forall r, strings.IsSpace (unicode.ToLower (caseTo E) r) = strings.IsSpace r) ->
  (forall r, unicode.ToLower (caseTo E) (unicode.ToLower (caseTo E) r)
             = unicode.ToLower (caseTo E) r) ->
  searchCacheKey E (ToLower E (strings.TrimSpace query)) = searchCacheKey E query /\
  cache.GetWikiSearchKey (ToLower E (strings.TrimSpace query))
  = searchCacheKey E query.
Proof.
  intros Hspace Hlower. split; [|done].
  unfold searchCacheKey, ToLower. f_equal.
  rewrite snippet_facts.TrimSpace_id.
  - rewrite <- list_fmap_compose. apply list_fmap_ext.
    intros i r _. apply Hlower.
  - apply normal_facts.map_noLead; [done|apply snippet_facts.TrimSpace_noLead].
  - apply normal_facts.map_noTrail; [done|apply snippet_facts.TrimSpace_noTrail].
Qed.

Lemma searchCacheKey_of_normalized_witness :
  ((forall r, strings.IsSpace (unicode.ToLower (caseTo mockEnv) r)
              = strings.IsSpace r) /\
   (forall r, unicode.ToLower (caseTo mockEnv) (unicode.ToLower (caseTo mockEnv) r)
              = unicode.ToLower (caseTo mockEnv) r)) /\
  searchCacheKey mockEnv (ToLower mockEnv (strings.TrimSpace (str " Test Query ")))
  = searchCacheKey mockEnv (str " Test Query ") /\
  cache.GetWikiSearchKey (ToLower mockEnv (strings.TrimSpace (str " Test Query ")))
  = searchCacheKey mockEnv (str " Test Query ").
Proof.
  assert (H1 : forall r, strings.IsSpace (unicode.ToLower (caseTo mockEnv) r)
                         = strings.IsSpace r) by apply key_facts.latin1_space.
  assert (H2 : forall r,
             unicode.ToLower (caseTo mockEnv) (unicode.ToLower (caseTo mockEnv) r)
             = unicode.ToLower (caseTo mockEnv) r) by apply key_facts.latin1_lower.
  split; [done|].
  exact (searchCacheKey_of_normalized mockEnv (str " Test Query ") H1 H2).
Defined.

(** X20: a search whose extracts are all in the cache costs one request.
    After a cache miss and a successful search request, when the cache
    holds an unexpired string under the page key of every result title,
    [Search] sends the search request and nothing else, and every result
    carries the cached extract of its title. *)
Theorem Search_extracts_cached (E : Env) (query : gostring) (limit : Z)
  (w : World) (rs : list SearchResult) :
  cacheMiss E query w ->
  (performSearch E query limit (afterMissLine query w)).1 = Ok rs ->
  let w1 := (performSearch E query limit (afterMissLine query w)).2 in
  Forall (fun r =>
            (cache.GetString (manager w) (clock w1)
               (cache.GetWikiPageKey (Title r))).2 = true) rs ->
  exists resp,
    (Search E query limit w).1 = Ok resp /\
    sent (Search E query limit w).2 = sent w ++ [SearchRequest query limit] /\
    Extract <$> Results resp
    = (fun r => (cache.GetString (manager w) (clock w1)
                   (cache.GetWikiPageKey (Title r))).1) <$> rs.
Proof.
  intros Hmiss Hp w1 Hall.
  destruct (client_facts.performSearch_world E query limit
              (afterMissLine query w)) as [Hm Hs].
  fold w1 in Hm, Hs. cbn [afterMissLine logWrite snd manager sent] in Hm, Hs.
  rewrite <- Hm in Hall.
  destruct (normal_facts.enhance_all_cached E rs w1 Hall)
    as (H1 & H2 & H3 & H4).
  rewrite (search_facts.Search_miss_ok E query limit w rs Hmiss Hp).
  fold w1. unfold missOutcome.
  destruct (enhance E rs w1) as [rs' w2]. cbn [fst snd] in *.
  eexists. split; [destruct (marshalSearchResponse E _); reflexivity|].
  cbn [Results]. rewrite H4, Hm. split; [|done].
  destruct (marshalSearchResponse E _); cbn [snd sent]; by rewrite H1, Hs.
Qed.

Lemma Search_extracts_cached_witness :
  let query := str "Dragon Bash" in
  let w := {| manager :=
                cache.Set_ cache.NewManager 1688212800000000000
                  (cache.GetWikiPageKey (str "Dragon Bash"))
                  (AnyString (str "A festival.")) cache.WikiDataTTL;
              clock := 1688212800000000000 + cache.Hour;
              sent := []; logged := [] |} in
  let rs := convertResults
              {| WikiAPIResponse.BatchComplete := [];
                 WikiAPIResponse.Search := [dragonBash];
                 WikiAPIResponse.TotalHits := 1 |} in
  let w1 := (performSearch dragonEnv query 5 (afterMissLine query w)).2 in
  (cacheMiss dragonEnv query w /\
   (performSearch dragonEnv query 5 (afterMissLine query w)).1 = Ok rs /\
   Forall (fun r =>
             (cache.GetString (manager w) (clock w1)
                (cache.GetWikiPageKey (Title r))).2 = true) rs) /\
  exists resp,
    (Search dragonEnv query 5 w).1 = Ok resp /\
    sent (Search dragonEnv query 5 w).2 = sent w ++ [SearchRequest query 5] /\
    Extract <$> Results resp
    = (fun r => (cache.GetString (manager w) (clock w1)
                   (cache.GetWikiPageKey (Title r))).1) <$> rs.
Proof.
  intros query w rs w1.
  assert (H1 : cacheMiss dragonEnv query w) by (vm_compute; reflexivity).
  assert (H2 : (performSearch dragonEnv query 5 (afterMissLine query w)).1
               = Ok rs) by reflexivity.
  assert (H3 : Forall (fun r =>
                  (cache.GetString (manager w) (clock w1)
                     (cache.GetWikiPageKey (Title r))).2 = true) rs)
    by (repeat constructor; vm_compute; reflexivity).
  split; [done|].
  exact (Search_extracts_cached dragonEnv query 5 w rs H1 H2 H3).
Defined.
